(** * CDK error mapper: a shallow embedding of [CdkErrorMapper]

    The development follows [CdkErrorMapper.getAmplifyError],
    [CdkErrorMapper.getCDKError] and the rule table
    [CdkErrorMapper.getKnownErrors].

    JavaScript strings are sequences of UTF-16 code units; they are modelled
    as lists of [N].  Regular expressions are modelled by a backtracking
    matcher written after the continuation semantics of ECMAScript
    (left-biased alternation, greedy quantifiers with the empty-iteration
    check, named capture groups, [$] without the multiline flag, and negative
    look-behind of a literal), restricted to the constructs the rule table
    uses. *)

From Stdlib Require Import String Ascii List NArith Arith Bool Lia.
Import ListNotations.

Set Warnings "-register-all".

(* ================================================================== *)
(** ** Strings *)

Module JsString.

Definition jschar := N.
Definition jsstring := list jschar.

(** An ASCII literal of the source, code unit by code unit. *)
Fixpoint str (s : string) : jsstring :=
  match s with
  | EmptyString => []
  | String a rest => N_of_ascii a :: str rest
  end.

Fixpoint eqb (a b : jsstring) : bool :=
  match a, b with
  | [], [] => true
  | x :: a', y :: b' => N.eqb x y && eqb a' b'
  | _, _ => false
  end.

Fixpoint startsWith (p s : jsstring) : bool :=
  match p, s with
  | [], _ => true
  | x :: p', y :: s' => N.eqb x y && startsWith p' s'
  | _ :: _, [] => false
  end.

(** [String.prototype.indexOf]: the least index at which [p] occurs. *)
Fixpoint indexOf (p s : jsstring) : option nat :=
  if startsWith p s then Some 0
  else match s with
       | [] => None
       | _ :: s' => option_map S (indexOf p s')
       end.

(** [String.prototype.includes]. *)
Definition includes (s p : jsstring) : bool :=
  match indexOf p s with Some _ => true | None => false end.

Definition substring (s : jsstring) (from to : nat) : jsstring :=
  firstn (to - from) (skipn from s).

(** [GetSubstitution] for a string pattern: there are no captures, so of the
    replacement patterns only [$$], [$&], [$`] and [$'] are special; any other
    [$] stands for itself. *)
Fixpoint GetSubstitution (matched before after template : jsstring)
  : jsstring :=
  match template with
  | [] => []
  | c :: rest =>
      if N.eqb c 36 then
        match rest with
        | d :: rest' =>
            if N.eqb d 36 then 36%N :: GetSubstitution matched before after rest'
            else if N.eqb d 38 then
              matched ++ GetSubstitution matched before after rest'
            else if N.eqb d 96 then
              before ++ GetSubstitution matched before after rest'
            else if N.eqb d 39 then
              after ++ GetSubstitution matched before after rest'
            else c :: GetSubstitution matched before after rest
        | [] => [c]
        end
      else c :: GetSubstitution matched before after rest
  end.

(** [s.replace(p, v)] with a string pattern [p] and a string [v]: only the
    first occurrence of [p] is replaced, and [v] is read as a replacement
    template. *)
Definition replace (s p v : jsstring) : jsstring :=
  match indexOf p s with
  | None => s
  | Some i =>
      let before := firstn i s in
      let after := skipn (i + length p) s in
      before ++ GetSubstitution p before after v ++ after
  end.

End JsString.
Export JsString.

(* ================================================================== *)
(** ** Regular expressions *)

Module RegExp.

Inductive regex : Type :=
| Empty
| Char (c : jschar)
| Dot
| Class (negated : bool) (ranges : list (jschar * jschar))
| Seq (r1 r2 : regex)
| Alt (r1 r2 : regex)
| Repeat (min : nat) (max : option nat) (r : regex)
| Group (name : option jsstring) (r : regex)
| AssertEnd
| NotBehind (lit : jsstring).

(** Pattern syntax of the table, as combinators. *)
Definition Star := Repeat 0 None.
Definition Plus := Repeat 1 None.
Definition Opt := Repeat 0 (Some 1).

Fixpoint lit_units (s : jsstring) : regex :=
  match s with
  | [] => Empty
  | [c] => Char c
  | c :: rest => Seq (Char c) (lit_units rest)
  end.

Definition lit (s : string) : regex := lit_units (str s).

Fixpoint cat (rs : list regex) : regex :=
  match rs with
  | [] => Empty
  | [r] => r
  | r :: rest => Seq r (cat rest)
  end.

Fixpoint alt (rs : list regex) : regex :=
  match rs with
  | [] => Empty
  | [r] => r
  | r :: rest => Alt r (alt rest)
  end.

Definition grp (r : regex) : regex := Group None r.
Definition named (n : string) (r : regex) : regex := Group (Some (str n)) r.
Definition any : regex := Star Dot.              (* .* *)
Definition digit : regex := Class false [(48, 57)%N].          (* \d *)

(** The code units [\s] matches: WhiteSpace and LineTerminator. *)
Definition whiteSpace : list (jschar * jschar) :=
  [(9, 13); (32, 32); (160, 160); (5760, 5760); (8192, 8202); (8232, 8233);
   (8239, 8239); (8287, 8287); (12288, 12288); (65279, 65279)]%N.
Definition nonSpace : regex := Class true whiteSpace.          (* \S *)

Definition isLineTerminator (c : jschar) : bool :=
  N.eqb c 10 || N.eqb c 13 || N.eqb c 8232 || N.eqb c 8233.

Definition inRanges (c : jschar) (ranges : list (jschar * jschar)) : bool :=
  existsb (fun r => N.leb (fst r) c && N.leb c (snd r)) ranges.

(** Capturing groups, counted as [match.length - 1] counts them. *)
Fixpoint ngroups (r : regex) : nat :=
  match r with
  | Seq r1 r2 | Alt r1 r2 => ngroups r1 + ngroups r2
  | Repeat _ _ r' => ngroups r'
  | Group _ r' => S (ngroups r')
  | _ => 0
  end.

(** Group names in the order the pattern declares them. *)
Fixpoint groupNames (r : regex) : list jsstring :=
  match r with
  | Seq r1 r2 | Alt r1 r2 => groupNames r1 ++ groupNames r2
  | Repeat _ _ r' => groupNames r'
  | Group (Some n) r' => n :: groupNames r'
  | Group None r' => groupNames r'
  | _ => []
  end.

Record MatchState : Type := mkState {
  endIndex : nat;
  captures : list (jsstring * jsstring)
}.

Definition Continuation := MatchState -> option MatchState.

Fixpoint lookup (n : jsstring) (caps : list (jsstring * jsstring))
  : option jsstring :=
  match caps with
  | [] => None
  | (k, v) :: rest => if JsString.eqb k n then Some v else lookup n rest
  end.

Definition clear (names : list jsstring) (caps : list (jsstring * jsstring))
  : list (jsstring * jsstring) :=
  filter (fun kv => negb (existsb (JsString.eqb (fst kv)) names)) caps.

Definition setCapture (name : option jsstring) (v : jsstring)
  (caps : list (jsstring * jsstring)) : list (jsstring * jsstring) :=
  match name with
  | Some n => (n, v) :: clear [n] caps
  | None => caps
  end.

Section Matcher.

Variable input : jsstring.

Definition step (ok : jschar -> bool) (x : MatchState) (c : Continuation)
  : option MatchState :=
  match nth_error input (endIndex x) with
  | Some ch => if ok ch then c (mkState (S (endIndex x)) (captures x))
               else None
  | None => None
  end.

(** [RepeatMatcher]: an iteration that matches the empty string once [min]
    is exhausted fails; captures of the body are reset on each iteration.
    [fuel] bounds the iterations; [min + remaining input + 1] is never
    exhausted (see [repeatMatcher_fuel]). *)
Fixpoint repeatMatcher (m : MatchState -> Continuation -> option MatchState)
  (names : list jsstring) (fuel min : nat) (max : option nat)
  (x : MatchState) (c : Continuation) {struct fuel} : option MatchState :=
  match max with
  | Some 0 => c x
  | _ =>
      match fuel with
      | 0 => None
      | S fuel' =>
          let d := fun y : MatchState =>
            if (min =? 0) && (endIndex y =? endIndex x) then None
            else repeatMatcher m names fuel' (pred min) (option_map pred max)
                   y c in
          let xr := mkState (endIndex x) (clear names (captures x)) in
          if min =? 0 then
            match m xr d with
            | Some z => Some z
            | None => c x
            end
          else m xr d
      end
  end.

Definition repeatFuel (min : nat) (x : MatchState) : nat :=
  S (min + (length input - endIndex x)).

Fixpoint matcher (r : regex) (x : MatchState) (c : Continuation)
  {struct r} : option MatchState :=
  match r with
  | Empty => c x
  | Char ch => step (N.eqb ch) x c
  | Dot => step (fun ch => negb (isLineTerminator ch)) x c
  | Class negated ranges =>
      step (fun ch => xorb negated (inRanges ch ranges)) x c
  | Seq r1 r2 => matcher r1 x (fun y => matcher r2 y c)
  | Alt r1 r2 =>
      match matcher r1 x c with
      | Some z => Some z
      | None => matcher r2 x c
      end
  | Repeat min max r' =>
      repeatMatcher (matcher r') (groupNames r') (repeatFuel min x) min max
        x c
  | Group name r' =>
      matcher r' x (fun y =>
        c (mkState (endIndex y)
             (setCapture name (substring input (endIndex x) (endIndex y))
                (captures y))))
  | AssertEnd => if endIndex x =? length input then c x else None
  | NotBehind l =>
      if (length l <=? endIndex x)
         && JsString.eqb (substring input (endIndex x - length l) (endIndex x)) l
      then None else c x
  end.

(** The search of [RegExpBuiltinExec] without the global or sticky flag:
    the least start index at which the pattern matches. *)
Fixpoint search (r : regex) (n i : nat) : option (nat * MatchState) :=
  match matcher r (mkState i []) Some with
  | Some y => Some (i, y)
  | None =>
      match n with
      | 0 => None
      | S n' => search r n' (S i)
      end
  end.

End Matcher.

(** The match result: [index], [result[0]], [result.length - 1] and
    [result.groups] ([None] when the pattern names no group; a group that did
    not take part has the value [None], JavaScript's [undefined]). *)
Record MatchResult : Type := mkMatch {
  index : nat;
  matched : jsstring;
  ncaptures : nat;
  groups : option (list (jsstring * option jsstring))
}.

Definition exec (r : regex) (s : jsstring) : option MatchResult :=
  match search s r (length s) 0 with
  | None => None
  | Some (i, y) =>
      Some (mkMatch i (substring s i (endIndex y)) (ngroups r)
              (match groupNames r with
               | [] => None
               | ns => Some (map (fun n => (n, lookup n (captures y))) ns)
               end))
  end.

(** [RegExp.prototype.test]. *)
Definition test (r : regex) (s : jsstring) : bool :=
  match exec r s with Some _ => true | None => false end.

(** [s.replace(r, '')] for a pattern without the global flag. *)
Definition removeFirst (r : regex) (s : jsstring) : jsstring :=
  match exec r s with
  | None => s
  | Some m => firstn (index m) s ++ skipn (index m + length (matched m)) s
  end.

End RegExp.
Export RegExp.

(* ================================================================== *)
(** ** Errors *)

Inductive AmplifyErrorClassification : Type := ERROR | FAULT.

(** What the capability probes of the deployment toolkit answer for an
    object; the probes are independent property checks. *)
Record ToolkitError : Type := mkToolkit {
  isAuthenticationError : bool;
  isAssemblyError : bool;
  isContextProviderError : bool;
  isToolkitError : bool
}.

Definition notToolkit : ToolkitError := mkToolkit false false false false.

(** A JavaScript error object.  [classification] is present exactly on the
    structured errors of the platform. *)
Inductive JsError : Type := mkError {
  name : jsstring;
  message : jsstring;
  classification : option AmplifyErrorClassification;
  resolution : option jsstring;
  cause : option JsError;
  toolkit : ToolkitError
}.

(** [new Error(message)] with its [name] set. *)
Definition nativeError (n m : jsstring) : JsError :=
  mkError n m None None None notToolkit.

Definition setMessage (e : JsError) (m : jsstring) : JsError :=
  mkError (name e) m (classification e) (resolution e) (cause e) (toolkit e).

(** Modelled from the spec: [AmplifyError.isAmplifyError] of platform-core,
    which is not among the sources; the spec describes a capability check,
    not a check of the type name. *)
Definition isAmplifyError (e : JsError) : bool :=
  match classification e with Some _ => true | None => false end.

(** Modelled from the spec: the constructor of [AmplifyUserError] of
    platform-core (severity USER_ERROR, classification ['ERROR']). *)
Definition AmplifyUserError (n m : jsstring) (r : option jsstring)
  (c : option JsError) : JsError :=
  mkError n m (Some ERROR) r c notToolkit.

(** Modelled from the spec: the constructor of [AmplifyFault] of
    platform-core (severity FAULT). *)
Definition AmplifyFault (n m : jsstring) (r : option jsstring)
  (c : option JsError) : JsError :=
  mkError n m (Some FAULT) r c notToolkit.

(** Modelled from the spec: [AmplifyError.fromError] of platform-core, the
    fallback: a passthrough error of kind [unknown] and severity FAULT that
    wraps the raw message verbatim. *)
Definition fromError (e : JsError) : JsError :=
  AmplifyFault (str "unknown") (message e) None (Some e).

(** A normal or an abrupt completion of a call. *)
Inductive Completion (A : Type) : Type :=
| Return (a : A)
| Throw (e : JsError).
Arguments Return {A} a.
Arguments Throw {A} e.

(** The collaborators of the mapper that live outside the source file:
    [AmplifyError.fromStderr], the [strip-ansi] package and the formatter
    handed to the constructor. *)
Record Collaborators : Type := mkCollaborators {
  fromStderr : jsstring -> option JsError;
  stripANSI : jsstring -> jsstring;
  normalizeAmpxCommand : jsstring -> jsstring
}.

(* ================================================================== *)
(** ** The mapper *)

Module CdkErrorMapper.

(** [private multiLineEolRegex = '[\r\n]*']. *)
Definition multiLineEolRegex : regex := Star (Class false [(13, 13); (10, 10)]%N).

(** An entry of the table; [classificationOf] is the field [classification]
    of the source, renamed apart from the field of the errors. *)
Record KnownError : Type := mkKnownError {
  errorRegex : regex;
  humanReadableErrorMessage : jsstring;
  resolutionMessage : jsstring;
  errorName : jsstring;
  classificationOf : AmplifyErrorClassification
}.

Definition rule (r : regex) (m res n : string)
  (c : AmplifyErrorClassification) : KnownError :=
  mkKnownError r (str m) (str res) (str n) c.

Definition nativeErrorNames : list jsstring :=
  [str "TypeError"; str "TransformError"; str "ReferenceError";
   str "SyntaxError"].

Definition getCDKError (error : JsError) : Completion (option JsError) :=
  if isAuthenticationError (toolkit error) then
    Return (Some (AmplifyUserError (str "AuthenticationError")
      (str "Unable to deploy due to insufficient permissions")
      (Some (str "Check the Caused by error and ensure you have the necessary permissions"))
      (Some error)))
  else if isAssemblyError (toolkit error) then
    Return (Some (AmplifyUserError (str "BackendBuildError")
      (str "Unable to deploy due to CDK Assembly Error")
      (Some (str "Check the Caused by error and fix any issues in your backend code"))
      (Some error)))
  else if isContextProviderError (toolkit error) then
    Return (Some (AmplifyFault (str "CDKContextProviderFault")
      (str "Unable to deploy due to CDK Context Provider Error")
      None
      (Some error)))
  else if existsb (fun errorName => JsString.eqb errorName (name error))
            nativeErrorNames then
    Throw (AmplifyUserError (str "SyntaxError")
      (str "Unable to build the Amplify backend definition.")
      (Some (str "Check the Caused by error and fix any issues in your backend code"))
      (Some error))
  else if isToolkitError (toolkit error) then
    Return None
  else Return None.

Section WithCollaborators.

Variable env : Collaborators.

Definition npmPrefix : regex := grp (alt [lit "npm error"; lit "npm ERR!"]).

Definition circularDependencyResolution : jsstring :=
  str "If you are using functions then you can assign them to existing nested stacks that are dependent on functions or functions depend on them, for example:"
  ++ [10%N] ++
  str "1. If your function is defined as auth triggers, you should assign this function to auth stack."
  ++ [10%N] ++
  str "2. If your function is used as data resolver or calls data API, you should assign this function to data stack."
  ++ [10%N] ++
  str "To assign a function to a different stack, use the property 'resourceGroupName' in the defineFunction call and choose auth, data or any custom stack."
  ++ [10%N; 10%N] ++
  str "If your circular dependency issue is not resolved with this workaround, please create an issue here https://github.com/aws-amplify/amplify-backend/issues/new/choose"
  ++ [10%N].

(** The rule table, in the order of the source.  Each call evaluates the
    array literal anew. *)
Definition getKnownErrors : list KnownError := [
  rule
    (alt [cat [lit "ExpiredToken: "; any];
          cat [lit "The security token included in the request is ";
               grp (alt [lit "expired"; lit "invalid"])]])
    "The security token included in the request is invalid."
    "Please update your AWS credentials. You can do this by running `aws configure` or by updating your AWS credentials file. If you're using temporary credentials, you may need to obtain new ones."
    "ExpiredTokenError" ERROR;
  rule
    (lit "The request signature we calculated does not match the signature you provided")
    "The request signature we calculated does not match the signature you provided."
    "You can retry your last request, check if your system time is synchronized (clock skew) or ensure your AWS credentials are correctly set and refreshed."
    "RequestSignatureError" ERROR;
  rule
    (lit "Access Denied")
    "The deployment role does not have sufficient permissions to perform this deployment."
    "Ensure your deployment role has the AmplifyBackendDeployFullAccess role along with any additional permissions required to deploy your backend definition."
    "AccessDeniedError" ERROR;
  rule
    (alt [grp (lit "Has the environment been bootstrapped");
          grp (cat [lit "Is account "; Plus digit; lit " bootstrapped"]);
          grp (lit "Is this account bootstrapped")])
    "This AWS account and region has not been bootstrapped."
    "Run `cdk bootstrap aws://{YOUR_ACCOUNT_ID}/{YOUR_REGION}` locally to resolve this."
    "BootstrapNotDetectedError" ERROR;
  rule
    (cat [lit "This CDK deployment requires bootstrap stack version ";
          Plus nonSpace; lit ", found "; Plus nonSpace;
          lit ". Please run 'cdk bootstrap'."])
    "This AWS account and region has outdated CDK bootstrap stack."
    "Run `cdk bootstrap aws://{YOUR_ACCOUNT_ID}/{YOUR_REGION}` locally to re-bootstrap."
    "BootstrapOutdatedError" ERROR;
  rule
    (cat [lit "This CDK deployment requires bootstrap stack version ";
          Plus nonSpace;
          lit ", but during the confirmation via SSM parameter ";
          Plus nonSpace;
          lit " the following error occurred: AccessDeniedException"])
    "Unable to detect CDK bootstrap stack due to permission issues."
    "Ensure that AWS credentials have an IAM policy that grants read access to 'arn:aws:ssm:*:*:parameter/cdk-bootstrap/*' SSM parameters."
    "BootstrapDetectionError" ERROR;
  rule
    (lit "This CDK CLI is not compatible with the CDK library used by your application. Please upgrade the CLI to the latest version.")
    "Installed 'aws-cdk' is not compatible with installed 'aws-cdk-lib'."
    "Make sure that version of 'aws-cdk' is greater or equal to version of 'aws-cdk-lib'"
    "CDKVersionMismatchError" ERROR;
  rule
    (lit "Command cdk not found")
    "Unable to detect cdk installation"
    "Ensure dependencies in your project are installed with your package manager. For example, by running 'yarn install' or 'npm install'"
    "CDKNotFoundError" ERROR;
  rule
    (cat [lit "Role "; named "roleArn" any;
          lit " is invalid or cannot be assumed"])
    "Role {roleArn} is invalid or cannot be assumed"
    "Ensure the role exists and AWS credentials have an IAM policy that grants sts:AssumeRole for the role"
    "InvalidOrCannotAssumeRoleError" ERROR;
  rule
    (lit "Unable to resolve AWS account to use")
    "Unable to resolve AWS account to use. It must be either configured when you define your CDK Stack, or through the environment"
    "You can retry your last request as this is most likely a transient issue: https://github.com/aws/aws-cdk/issues/24744. If the error persists ensure your local AWS credentials are valid."
    "CDKResolveAWSAccountError" ERROR;
  rule
    (cat [lit "EACCES"; grp any])
    "File permissions error"
    "Check that you have the right access permissions to the mentioned file"
    "FilePermissionsError" ERROR;
  rule
    (cat [lit "operation not permitted, rename ";
          named "fileName" (cat [grp any; lit "/synth.lock."; Plus nonSpace]);
          lit " "; Char 8594%N; lit " '"; grp any; lit "/synth.lock'"])
    "Not permitted to rename file: {fileName}"
    "Try running the command again and ensure that only one instance of sandbox is running. If it still doesn't work check the permissions of '.amplify' folder"
    "FilePermissionsError" ERROR;
  rule
    (cat [lit "operation not permitted, mkdir '"; grp any; Dot;
          lit "amplify/artifacts/cdk"; Dot; lit "out'"])
    "Not permitted to create the directory '.amplify/artifacts/cdk.out'"
    "Check the permissions of '.amplify' folder and try running the command again"
    "FilePermissionsError" ERROR;
  rule
    (cat [lit "operation not permitted, ";
          grp (alt [lit "unlink"; lit "open"]); lit " ";
          named "fileName" (cat [grp any; lit ".lock"; Plus nonSpace])])
    "Operation not permitted on file: {fileName}"
    "Check the permissions of '.amplify' folder and try running the command again"
    "FilePermissionsError" ERROR;
  rule
    (cat [lit "Cannot find module "; grp any])
    "Cannot find module"
    "Check your backend definition in the `amplify` folder for missing file or package imports. Try installing them with your package manager."
    "ModuleNotFoundError" ERROR;
  rule
    (alt [cat [lit "Another CLI "; grp any; lit " is currently"; grp any;
               lit ". "];
          cat [lit "Other CLIs "; grp any;
               lit " are currently reading from"; grp any; lit ". "]])
    "Multiple sandbox instances detected."
    "Make sure only one instance of sandbox is running for this project"
    "MultipleSandboxInstancesError" ERROR;
  rule
    (cat [grp any; lit " ";
          grp (alt [lit "size must be smaller than";
                    lit "exceeds the maximum allowed size of"]);
          lit " "; named "maxSize" (Plus digit); lit " bytes"])
    "Maximum Lambda size exceeded"
    "Make sure your Lambda bundled packages with layers and dependencies is smaller than {maxSize} bytes unzipped."
    "LambdaMaxSizeExceededError" ERROR;
  rule
    (lit "Uploaded file must be a non-empty zip")
    "Lambda bundled into an empty zip"
    "Try removing '.amplify/artifacts' then running the command again. If it still doesn't work, see https://github.com/aws/aws-cdk/issues/18459 for more methods."
    "LambdaEmptyZipFault" FAULT;
  rule
    (cat [lit "User:"; grp any;
          lit " is not authorized to perform: lambda:GetLayerVersion on resource:";
          grp any;
          lit " because no resource-based policy allows the lambda:GetLayerVersion action"])
    "Unable to get Lambda layer version"
    "Make sure layer ARNs are correct and layer regions match function region"
    "GetLambdaLayerVersionError" ERROR;
  rule
    (cat [lit "The stack named "; named "stackName" any;
          lit " is in a failed state"; Dot;
          lit " You may need to delete it from the AWS console : DELETE_FAILED (The following resource(s) failed to delete: ";
          named "resources" any; Dot; lit " )"])
    "The CloudFormation deletion failed due to {stackName} being in DELETE_FAILED state. Ensure all your resources are able to be deleted"
    "The following resource(s) failed to delete: {resources}. Check the error message for more details and ensure your resources are in a state where they can be deleted. Check the CloudFormation AWS Console for this stack to find additional information."
    "CloudFormationDeletionError" ERROR;
  rule
    (cat [lit "User:"; grp any; lit " is not authorized to perform:";
          grp any; lit " on resource:"; named "resource" any;
          lit " because no identity-based policy allows the ";
          named "action" any; lit " action"])
    "Unable to deploy due to insufficient permissions"
    "Ensure you have permissions to call {action} for {resource}"
    "AccessDeniedError" ERROR;
  rule
    (cat [lit "User:"; grp any; lit " is not authorized to perform:";
          grp any; lit " because no identity-based policy allows the ";
          named "action" any; lit " action"])
    "Unable to deploy due to insufficient permissions"
    "Ensure you have permissions to call {action}"
    "AccessDeniedError" ERROR;
  rule
    (cat [lit "User:"; grp any; lit " is not authorized to perform:";
          named "action" any; lit " on resource:"; named "resource" any])
    "Unable to deploy due to insufficient permissions"
    "Ensure you have permissions to call {action} for {resource}"
    "AccessDeniedError" ERROR;
  rule
    (cat [lit "Found "; named "number" any;
          lit " problem(s) with the schema:"])
    "{number} problem(s) have been found with your schema"
    "See the underlying error message for details about what the problems are and resolve them before attempting this action again"
    "SchemaError" ERROR;
  rule
    (cat [lit "Transform failed with "; any; lit " error";
          grp (Opt (Char 115%N)); lit ":"; multiLineEolRegex;
          named "esBuildErrorMessage"
            (Plus (grp (cat [any; multiLineEolRegex])))])
    "{esBuildErrorMessage}"
    "Fix the above mentioned type or syntax error in your backend definition."
    "ESBuildError" ERROR;
  rule
    (lit "Amplify Backend not found in")
    "Backend definition could not be found in amplify directory."
    "Ensure that the amplify/backend.(ts|js) file exists"
    "FileConventionError" ERROR;
  rule
    (cat [lit "Amplify "; grp any; lit " must be defined in "; grp any])
    "File name or path for backend definition are incorrect."
    "Ensure that the amplify/backend.(ts|js) file exists"
    "FileConventionError" ERROR;
  rule
    (lit "Updates are not allowed for property")
    "The changes that you are trying to apply are not supported."
    "The resources referenced in the error message must be deleted and recreated to apply the changes."
    "CFNUpdateNotSupportedError" ERROR;
  rule
    (lit "Invalid AttributeDataType input, consider using the provided AttributeDataType enum")
    "User pool attributes cannot be changed after a user pool has been created."
    "To change these attributes, remove `defineAuth` from your backend, deploy, then add it back. Note that removing `defineAuth` and deploying will delete any users stored in your UserPool."
    "CFNUpdateNotSupportedError" ERROR;
  rule
    (cat [lit "connect ENOMEM ";
          named "remoteAddress"
            (cat [Plus digit; lit "."; Plus digit; lit "."; Plus digit;
                  lit "."; Plus digit]);
          any])
    "Unable to connect to remote address {remoteAddress} due to insufficient memory."
    "There appears to be insufficient memory on your system to finish. Close other applications or restart your system and try again."
    "InsufficientMemorySpaceError" ERROR;
  rule
    (cat [lit "npm error code EJSONPARSE"; multiLineEolRegex;
          lit "npm error path ";
          named "filePath" (cat [any; lit "/package.json"]);
          multiLineEolRegex;
          Star (grp (cat [lit "npm error "; grp any; multiLineEolRegex]))])
    "The {filePath} is not a valid JSON."
    "Check package.json file and make sure it is a valid JSON."
    "InvalidPackageJsonError" ERROR;
  rule
    (named "npmError"
       (cat [npmPrefix; lit " code ENOENT"; multiLineEolRegex;
             Star (grp (cat [npmPrefix; lit " "; grp any;
                             multiLineEolRegex]))]))
    "NPM error occurred: {npmError}"
    "See https://docs.npmjs.com/common-errors for resolution."
    "CommonNPMError" ERROR;
  rule
    (cat [lit "no such file or directory, open '"; any; lit ".amplify"; Dot;
          lit "artifacts"; Dot; lit "cdk.out"; Dot; lit "manifest.json'"])
    "The Amplify backend definition is missing `defineBackend` call."
    "Check your backend definition in the `amplify` folder. Ensure that `amplify/backend.ts` contains `defineBackend` call."
    "MissingDefineBackendError" ERROR;
  rule
    (cat [lit "no such file or directory, ";
          named "action_and_filepath" any; AssertEnd])
    "Failed to {action_and_filepath}"
    "File or directory not found. Failed to {action_and_filepath}"
    "FileNotFoundError" ERROR;
  rule
    (lit "amplify/backend")
    "Unable to build Amplify backend."
    "Check your backend definition in the `amplify` folder for syntax and type errors."
    "BackendBuildError" ERROR;
  mkKnownError
    (cat [lit "Failed to retrieve backend secret "; named "secretName" any;
          lit " for"; any; lit "ParameterNotFound"])
    (str "The secret {secretName} specified in the backend does not exist.")
    (str "Create secrets using the command "
     ++ normalizeAmpxCommand env (str "sandbox secret set")
     ++ str ". For more information, see https://docs.amplify.aws/gen2/deploy-and-host/sandbox-environments/features/#set-secrets")
    (str "SecretNotSetError") ERROR;
  rule
    (alt [lit "The code contains one or more errors";
          cat [lit "The code contains one or more errors"; any;
               lit "AppSync"]])
    "A custom resolver used in your defineData contains one or more errors"
    "Check for any syntax errors in your custom resolvers code."
    "AppSyncResolverSyntaxError" ERROR;
  rule
    (lit "Failed to publish asset")
    "CDK failed to publish assets"
    "Check the error message for more details."
    "CDKAssetPublishError" ERROR;
  rule
    (cat [lit "destroy failed Error: Stack ["; named "stackArn" any;
          lit "] cannot be deleted while in status "])
    "Backend failed to be deleted since the previous deployment is still in progress."
    "Wait for the previous deployment for stack {stackArn} to be completed before attempting to delete again."
    "DeleteFailedWhileDeploymentInProgressError" ERROR;
  mkKnownError
    (cat [lit "ValidationError: Circular dependency between resources: [";
          named "resources" any; lit "]"])
    (str "The CloudFormation deployment failed due to circular dependency found between nested stacks [{resources}]")
    circularDependencyResolution
    (str "CloudformationStackCircularDependencyError") ERROR;
  rule
    (cat [NotBehind (str "ValidationError: ");
          lit "Circular dependency between resources: [";
          named "resources" any; lit "]"])
    "The CloudFormation deployment failed due to circular dependency found between resources [{resources}] in a single stack"
    "If you are creating custom stacks or adding new CDK resources to amplify stacks, ensure that there are no cyclic dependencies. For more details see: https://aws.amazon.com/blogs/infrastructure-and-automation/handling-circular-dependency-errors-in-aws-cloudformation/"
    "CloudformationResourceCircularDependencyError" ERROR;
  rule
    (cat [named "stackName"
            (cat [lit "amplify";
                  Plus (Class false [(97, 122); (48, 57); (45, 45)]%N)]);
          grp any; lit " failed: ValidationError: Stack:"; grp any;
          lit " is in "; named "state" any;
          lit " state and can not be updated"])
    "The CloudFormation deployment failed due to {stackName} being in {state} state."
    "Find more information in the CloudFormation AWS Console for this stack."
    "CloudFormationDeploymentError" ERROR;
  rule
    (cat [lit "failed: ValidationError: Stack [";
          named "stackName"
            (cat [lit "amplify";
                  Plus (Class false [(97, 122); (48, 57); (45, 45)]%N)]);
          grp any;
          lit "] cannot be deleted while TerminationProtection is enabled"])
    "{stackName} cannot be deleted because it has termination deployment enabled."
    "If you are sure you want to delete {stackName}, you will need to disable TerminationProtection."
    "CloudFormationDeletionError" ERROR;
  rule
    (alt [cat [lit "Deployment failed: "; grp any; multiLineEolRegex];
          cat [lit "The stack named "; grp any; lit " failed ";
               grp (alt [lit "to deploy:"; lit "creation,"]); lit " ";
               grp any]])
    "The CloudFormation deployment has failed."
    "Find more information in the CloudFormation AWS Console for this stack."
    "CloudFormationDeploymentError" ERROR
].

(** The state the substitution loop works on: the two template fields of
    [matchingError], rewritten in place by the source, and
    [underlyingError]. *)
Record Rewriting : Type := mkRewriting {
  rwMessage : jsstring;
  rwResolution : jsstring;
  underlyingError : option JsError
}.

(** A captured value as [replace] reads it: [undefined] becomes the text
    [undefined]. *)
Definition toStringValue (v : option jsstring) : jsstring :=
  match v with Some s => s | None => str "undefined" end.

(** One turn of [for (const [key, value] of Object.entries(groups))]. *)
Definition substituteGroup (st : Rewriting)
  (entry : jsstring * option jsstring) : Rewriting :=
  let placeHolder := str "{" ++ fst entry ++ str "}" in
  if includes (rwMessage st) placeHolder
     || includes (rwResolution st) placeHolder
  then mkRewriting
         (replace (rwMessage st) placeHolder (toStringValue (snd entry)))
         (replace (rwResolution st) placeHolder (toStringValue (snd entry)))
         None
  else st.

(** [new RegExp(`${this.multiLineEolRegex}$`)]. *)
Definition trailingEol : regex := Seq multiLineEolRegex AssertEnd.

(** The result of a call together with the caller's error object as the
    call leaves it. *)
Record Outcome : Type := mkOutcome {
  completion : Completion JsError;
  errorAfter : JsError
}.

(** The body of [if (matchingError) { ... }]. *)
Definition applyKnownError (matchingError : KnownError)
  (errorMessage : jsstring) (error : JsError) : Outcome :=
  let start :=
    mkRewriting (humanReadableErrorMessage matchingError)
      (resolutionMessage matchingError) (Some error) in
  let '(st, error') :=
    match exec (errorRegex matchingError) errorMessage with
    | Some matchGroups =>
        if 1 <? S (ncaptures matchGroups) then
          match groups matchGroups with
          | Some entries =>
              let st := fold_left substituteGroup entries start in
              (mkRewriting (removeFirst trailingEol (rwMessage st))
                 (rwResolution st) (underlyingError st), error)
          | None =>
              let error' := setMessage error (matched matchGroups) in
              (mkRewriting (rwMessage start) (rwResolution start)
                 (Some error'), error')
          end
        else (start, error)
    | None => (start, error)
    end in
  mkOutcome
    (Return
       (match classificationOf matchingError with
        | ERROR =>
            AmplifyUserError (errorName matchingError) (rwMessage st)
              (Some (rwResolution st)) (underlyingError st)
        | FAULT =>
            AmplifyFault (errorName matchingError) (rwMessage st)
              (Some (rwResolution st)) (underlyingError st)
        end))
    error'.

Definition nodeVersionResolution (deploymentType : option jsstring)
  : jsstring :=
  match deploymentType with
  | Some t =>
      if JsString.eqb t (str "branch") then
        str "Upgrade the node version in your CI/CD environment. "
        ++ str "If you are using Amplify Hosting for your backend builds, you can add `nvm install 18.x` or `nvm install 20.x` in your `amplify.yml` before the `pipeline-deploy` command"
      else str "Upgrade to node `^18.19.0`, `^20.6.0,` or `>=22`"
  | None => str "Upgrade to node `^18.19.0`, `^20.6.0,` or `>=22`"
  end.

Definition getAmplifyError (error : JsError)
  (deploymentType : option jsstring) : Outcome :=
  match fromStderr env (message error) with
  | Some amplifyError => mkOutcome (Return amplifyError) error
  | None =>
  if isAmplifyError error then mkOutcome (Return error) error
  else
  match getCDKError error with
  | Throw thrown => mkOutcome (Throw thrown) error
  | Return (Some errorFromCDK) => mkOutcome (Return errorFromCDK) error
  | Return None =>
  if includes (message error) (str "does not support module.register()")
  then
    mkOutcome
      (Return
         (AmplifyUserError (str "NodeVersionNotSupportedError")
            (str "Unable to deploy due to unsupported node version")
            (Some (nodeVersionResolution deploymentType))
            (Some error)))
      error
  else
  if includes (message error) (str "Failed to bundle asset") then
    mkOutcome
      (Return
         (AmplifyUserError (str "CDKAssetBundleError")
            (str "CDK failed to bundle your function code")
            (Some (str "Check the error messages above for mode details"))
            None))
      error
  else
  let errorMessage := stripANSI env (message error) in
  match find (fun knownError => test (errorRegex knownError) errorMessage)
          getKnownErrors with
  | Some matchingError => applyKnownError matchingError errorMessage error
  | None => mkOutcome (Return (fromError error)) error
  end
  end
  end.

End WithCollaborators.

End CdkErrorMapper.
Export CdkErrorMapper.

(* ================================================================== *)
(** ** The lint plugin *)

Module EslintRules.

(** The rule modules the index imports; their code is in other files. *)
Inductive RuleModule : Type :=
| noEmptyCatchRule
| amplifyErrorNameRule
| preferAmplifyErrorsRule
| noAmplifyErrors
| amplifyErrorNoInstanceOf
| backendOutputClientErrorNoInstanceOf
| propagateErrorCause.

(** [export const rules], in the order of its keys. *)
Definition rules : list (string * RuleModule) :=
  [("amplify-error-name", amplifyErrorNameRule);
   ("amplify-error-no-instanceof", amplifyErrorNoInstanceOf);
   ("backend-output-client-error-no-instanceof",
    backendOutputClientErrorNoInstanceOf);
   ("no-empty-catch", noEmptyCatchRule);
   ("prefer-amplify-errors", preferAmplifyErrorsRule);
   ("no-amplify-errors", noAmplifyErrors);
   ("propagate-error-cause", propagateErrorCause)]%string.

(** The two levels the configuration uses, ['error'] and ['off']. *)
Inductive Level : Type := error | off.

Record Override : Type := mkOverride {
  files : list string;
  excludedFiles : list string;
  overrideRules : list (string * Level)
}.

Record Config : Type := mkConfig {
  plugins : list string;
  configRules : list (string * Level);
  overrides : list Override
}.

(** [configs.recommended]. *)
Definition recommended : Config :=
  mkConfig
    ["@aws-amplify/amplify-backend-rules"]%string
    [("@aws-amplify/amplify-backend-rules/amplify-error-name", error);
     ("@aws-amplify/amplify-backend-rules/amplify-error-no-instanceof", error);
     ("@aws-amplify/amplify-backend-rules/backend-output-client-error-no-instanceof",
      error);
     ("@aws-amplify/amplify-backend-rules/no-empty-catch", error);
     ("@aws-amplify/amplify-backend-rules/prefer-amplify-errors", off);
     ("@aws-amplify/amplify-backend-rules/no-amplify-errors", off);
     ("@aws-amplify/amplify-backend-rules/propagate-error-cause", error)]%string
    [mkOverride
       ["packages/sandbox/src/**"; "packages/backend-ai/src/**";
        "packages/backend-auth/src/**"; "packages/backend-deployer/src/**";
        "packages/create-amplify/src/**"; "packages/form-generator/src/**";
        "packages/model-generator/src/**";
        "packages/schema-generator/src/**"]%string
       ["**/*.test.ts"]%string
       [("@aws-amplify/amplify-backend-rules/prefer-amplify-errors",
         error)]%string;
     mkOverride
       ["packages/auth-construct/src/**"; "packages/ai-constructs/src/**";
        "packages/backend-output-storage/src/**";
        "packages/deployed-backend-client/src/**"]%string
       []
       [("@aws-amplify/amplify-backend-rules/no-amplify-errors",
         error)]%string].

(** The name under which a configuration refers to a rule of a plugin. *)
Definition qualified (plugin ruleName : string) : string :=
  (plugin ++ "/" ++ ruleName)%string.

End EslintRules.

(* ================================================================== *)
(** ** A concrete set of collaborators *)

Module Sample.

(** The escape sequences of text colouring: ESC or CSI, bracket characters,
    up to four digits with further [;]-separated parameters, and a final
    character, as [ansi-regex] writes its second alternative. *)
Definition ansiFinal : list (jschar * jschar) :=
  [(48, 57); (65, 80); (82, 84); (90, 90); (99, 99); (102, 110); (113, 117);
   (121, 121); (61, 61); (62, 62); (60, 60); (126, 126)]%N.

Definition ansiRegex : regex :=
  cat [Class false [(27, 27); (155, 155)]%N;
       Star (Class false [(91, 91); (93, 93); (40, 41); (35, 35); (59, 59);
                          (63, 63)]%N);
       Opt (cat [Repeat 1 (Some 4) digit;
                 Star (cat [Char 59%N; Repeat 0 (Some 4) digit])]);
       Class false ansiFinal].

(** [string.replace(regex, '')] with the global flag, for a pattern that
    never matches the empty string. *)
Fixpoint removeAll (r : regex) (fuel : nat) (s : jsstring) : jsstring :=
  match fuel with
  | 0 => s
  | S fuel' =>
      match exec r s with
      | None => s
      | Some m =>
          firstn (index m) s
          ++ removeAll r fuel' (skipn (index m + length (matched m)) s)
      end
  end.

Definition stripAnsi (s : jsstring) : jsstring :=
  removeAll ansiRegex (length s) s.

(** A serialized structured error as a child process prints it, and the
    error it stands for. *)
Definition serializedSample : jsstring :=
  str "serializedError: `eyJuYW1lIjoiU2FtcGxlRXJyb3IifQ==`".

Definition sampleError : JsError :=
  AmplifyUserError (str "SampleError") (str "sample message")
    (Some (str "sample resolution")) None.

Definition sampleFromStderr (stderr : jsstring) : option JsError :=
  if includes stderr serializedSample then Some sampleError else None.

Definition collaborators : Collaborators :=
  mkCollaborators sampleFromStderr stripAnsi
    (fun command => str "npx ampx " ++ command).

End Sample.

(* ================================================================== *)
(** ** Vocabulary of the statements *)

(** The cause of a returned error: [None] for an abrupt completion,
    [Some None] for a returned error without cause. *)
Definition cause_of_return (c : Completion JsError) : option (option JsError) :=
  match c with
  | Return r => Some (cause r)
  | Throw _ => None
  end.

(** The kind of a returned error. *)
Definition kindOf (o : Outcome) : option jsstring :=
  match completion o with
  | Return r => Some (name r)
  | Throw _ => None
  end.

(** The classification of the result of a classification. *)
Definition reclassified (env : Collaborators) (error : JsError) : Outcome :=
  match completion (getAmplifyError env error None) with
  | Return r => getAmplifyError env r None
  | Throw e => mkOutcome (Throw e) error
  end.

Section Vocabulary.

Variable env : Collaborators.

(** None of the first three branches takes the error: its message carries
    no serialized structured error, it is no structured error itself, and
    the toolkit probe neither returns nor throws an error for it. *)
Definition unhandled (error : JsError) : Prop :=
  fromStderr env (message error) = None /\
  isAmplifyError error = false /\
  getCDKError error = Return None.

(** The error reaches the scan of the rule table. *)
Definition reachesTable (error : JsError) : Prop :=
  unhandled error /\
  includes (message error) (str "does not support module.register()") = false /\
  includes (message error) (str "Failed to bundle asset") = false.

(** What the scan of the rule table makes of a message. *)
Definition scanTable (error : JsError) : Outcome :=
  let errorMessage := stripANSI env (message error) in
  match find (fun knownError => test (errorRegex knownError) errorMessage)
          (getKnownErrors env) with
  | Some matchingError => applyKnownError matchingError errorMessage error
  | None => mkOutcome (Return (fromError error)) error
  end.

End Vocabulary.

(** The set of kinds the specification enumerates. *)
Definition taxonomy : list jsstring :=
  map str
    ["AccessDeniedError"; "AuthenticationError"; "AppSyncResolverSyntaxError";
     "BackendBuildError"; "BootstrapNotDetectedError";
     "BootstrapDetectionError"; "BootstrapOutdatedError";
     "CDKAssetPublishError"; "CDKAssetBundleError"; "CDKNotFoundError";
     "CDKResolveAWSAccountError"; "CDKVersionMismatchError";
     "CFNUpdateNotSupportedError";
     "CloudformationResourceCircularDependencyError";
     "CloudformationStackCircularDependencyError";
     "CloudFormationDeletionError"; "CloudFormationDeploymentError";
     "CommonNPMError"; "DeleteFailedWhileDeploymentInProgressError";
     "FilePermissionsError"; "MissingDefineBackendError";
     "MultipleSandboxInstancesError"; "ESBuildError"; "ExpiredTokenError";
     "FileConventionError"; "FileNotFoundError"; "ModuleNotFoundError";
     "InsufficientMemorySpaceError"; "InvalidOrCannotAssumeRoleError";
     "InvalidPackageJsonError"; "SchemaError"; "SecretNotSetError";
     "SyntaxError"; "GetLambdaLayerVersionError"; "LambdaEmptyZipFault";
     "LambdaMaxSizeExceededError"; "RequestSignatureError";
     "NodeVersionNotSupportedError"; "unknown"]%string.

Definition inKinds (kinds : list jsstring) (n : jsstring) : bool :=
  existsb (fun k => JsString.eqb k n) kinds.


(** How often [p] occurs in [s], counted at every position. *)
Fixpoint occurrences (p s : jsstring) : nat :=
  (if startsWith p s then 1 else 0)
  + match s with
    | [] => 0
    | _ :: s' => occurrences p s'
    end.

(** Every named group of the rule has its placeholder at most once in each
    of the two templates. *)
Definition placeholdersAtMostOnce (rule : KnownError) : bool :=
  forallb
    (fun n =>
       (occurrences (str "{" ++ n ++ str "}")
          (humanReadableErrorMessage rule) <=? 1)
       && (occurrences (str "{" ++ n ++ str "}") (resolutionMessage rule)
           <=? 1))
    (groupNames (errorRegex rule)).

Section MatcherVocabulary.

Variable input : jsstring.

(** Two continuations that agree on the states at or after position [i]. *)
Definition agreeFrom (i : nat) (c c' : Continuation) : Prop :=
  forall y, i <= endIndex y -> endIndex y <= length input -> c y = c' y.

(** A matcher calls its continuation only on states at or after its own
    and within the input. *)
Definition forwardOnly
  (m : MatchState -> Continuation -> option MatchState) : Prop :=
  forall x c c',
    endIndex x <= length input ->
    agreeFrom (endIndex x) c c' ->
    m x c = m x c'.

End MatcherVocabulary.

(** One iteration of a quantifier hands the matcher of its body the
    continuation [d] that runs the iterations after it. *)
Definition nextIteration
  (m : MatchState -> Continuation -> option MatchState)
  (names : list jsstring) (fuel min : nat) (max : option nat)
  (x : MatchState) (c : Continuation) : Continuation :=
  fun y =>
    if (min =? 0) && (endIndex y =? endIndex x) then None
    else repeatMatcher m names fuel (pred min) (option_map pred max) y c.

(** The state of a match after [n] more code units. *)
Definition advance (x : MatchState) (n : nat) : MatchState :=
  mkState (endIndex x + n) (captures x).

(** A matcher that succeeds hands its result over from its continuation,
    called on a state at or after the start and within the input. *)
Definition handsOver (input : jsstring)
  (m : MatchState -> Continuation -> option MatchState) : Prop :=
  forall x c z,
    endIndex x <= length input ->
    m x c = Some z ->
    exists y, endIndex x <= endIndex y /\ endIndex y <= length input /\
              c y = Some z.

(** The error a rule yields when its templates are used as they stand. *)
Definition verbatim (R : KnownError) (c : option JsError) : JsError :=
  mkError (errorName R) (humanReadableErrorMessage R)
    (Some (classificationOf R)) (Some (resolutionMessage R)) c notToolkit.

(** Every named group of the rule has its placeholder in the message
    template or in the resolution template. *)
Definition groupsReferenced (R : KnownError) : bool :=
  forallb
    (fun n =>
       includes (humanReadableErrorMessage R) (str "{" ++ n ++ str "}")
       || includes (resolutionMessage R) (str "{" ++ n ++ str "}"))
    (groupNames (errorRegex R)).

(** The rule reports an error, or it is the one for an empty archive. *)
Definition faultOnlyForEmptyZip (R : KnownError) : bool :=
  match classificationOf R with
  | ERROR => true
  | FAULT => JsString.eqb (errorName R) (str "LambdaEmptyZipFault")
  end.

(** The characters of [multiLineEolRegex]. *)
Definition isEol (c : jschar) : bool := inRanges c [(13, 13); (10, 10)]%N.

(** A text without the carriage returns and line feeds at its end. *)
Fixpoint dropTrailingEol (s : jsstring) : jsstring :=
  match s with
  | [] => []
  | c :: s' => if forallb isEol s then [] else c :: dropTrailingEol s'
  end.

(** The text ends in a carriage return or a line feed. *)
Definition endsInEol (s : jsstring) : bool :=
  match s with
  | [] => false
  | _ :: _ => isEol (last s 0%N)
  end.

(** The same collaborators with another formatter. *)
Definition withFormatter (env : Collaborators)
  (normalize : jsstring -> jsstring) : Collaborators :=
  mkCollaborators (fromStderr env) (stripANSI env) normalize.

(** What a rule is apart from its resolution text. *)
Definition ruleCore (R : KnownError)
  : regex * jsstring * jsstring * AmplifyErrorClassification :=
  (errorRegex R, humanReadableErrorMessage R, errorName R, classificationOf R).

(** Two completions that differ at most in the resolution text. *)
Definition sameButResolution (a b : Completion JsError) : Prop :=
  match a, b with
  | Return x, Return y | Throw x, Throw y =>
      name x = name y /\ message x = message y /\
      classification x = classification y /\ cause x = cause y
  | _, _ => False
  end.

(** The substitution loop on one template: each entry of [groups], in
    order, has the first occurrence of its placeholder replaced, the value
    being read as a replacement template. *)
Definition substituteAll (entries : list (jsstring * option jsstring))
  (template : jsstring) : jsstring :=
  fold_left
    (fun t entry =>
       replace t (str "{" ++ fst entry ++ str "}") (toStringValue (snd entry)))
    entries template.

(** The text up to its first line terminator, which is what [.*] takes. *)
Fixpoint upToLineTerminator (s : jsstring) : jsstring :=
  match s with
  | [] => []
  | c :: s' => if isLineTerminator c then [] else c :: upToLineTerminator s'
  end.

(* ================================================================== *)
(** ** Sample inputs *)

Module Inputs.

Definition plain (m : string) : JsError := nativeError (str "Error") (str m).

(** A [TypeError] thrown while the backend definition is evaluated. *)
Definition typeError : JsError :=
  nativeError (str "TypeError") (str "backend.addOutput is not a function").

(** An error of the toolkit for which only the context-provider probe
    answers. *)
Definition contextProviderError : JsError :=
  mkError (str "ContextProviderError") (str "Cannot look up the hosted zone")
    None None None (mkToolkit false false true true).

(** A structured error whose message quotes the output of a child process
    with a serialized structured error in it. *)
Definition wrappedChildFailure : JsError :=
  AmplifyUserError (str "ChildProcessError")
    (str "Command failed with " ++ Sample.serializedSample)
    (Some (str "See the output of the command")) None.

Definition nodeVersion : JsError :=
  plain "Error: This version of Node.js does not support module.register(). Please upgrade".

Definition bundling : JsError :=
  plain "Error: Failed to bundle asset amplify-function/Code/Stage".

(** The message of [nodeVersion] on a [TypeError]. *)
Definition nodeVersionTypeError : JsError :=
  nativeError (str "TypeError") (message nodeVersion).

End Inputs.

Module FirstMatch.

(** A message that the rule [/Access Denied/] (position 2) and the catch-all
    [/amplify\/backend/] (position 34) both match. *)
Definition error : JsError :=
  Inputs.plain "Access Denied while synthesizing amplify/backend.ts".


End FirstMatch.

Module AccessDenied.

Definition error : JsError := Inputs.plain "Access Denied: xyz".

End AccessDenied.

Module Permission.

Definition error : JsError :=
  Inputs.plain "Error: EACCES: permission denied, open '/srv/app/amplify_outputs.json'".


End Permission.

Module Placeholders.

Definition role : JsError :=
  Inputs.plain "Role arn:aws:iam::123:role/Foo is invalid or cannot be assumed".

(** A missing file on a mount whose name ends in a dollar sign, as the
    administrative shares of Windows do. *)
Definition share : JsError :=
  Inputs.plain "ENOENT: no such file or directory, open '/mnt/c$'".

(** A role name that reads as the replacement pattern for the matched
    text. *)
Definition dollarRole : JsError :=
  Inputs.plain "Role $& is invalid or cannot be assumed".

(** An action that reads as the placeholder of the group after it. *)
Definition braces : JsError :=
  Inputs.plain "User: arn:aws:iam::123:user/dev is not authorized to perform: {resource} on resource: arn:aws:s3:::b".

End Placeholders.

Module Ansi.

Definition esc : jsstring := [27%N].

(** [Access Denied] in red. *)
Definition coloured : JsError :=
  nativeError (str "Error")
    (esc ++ str "[31mAccess Denied" ++ esc ++ str "[39m: xyz").

(** The phrase with a code between its words. *)
Definition interrupted : JsError :=
  nativeError (str "Error")
    (str "Access " ++ esc ++ str "[1mDenied" ++ esc ++ str "[22m").

Definition nodeVersion : JsError :=
  nativeError (str "Error")
    (str "Node.js does not support " ++ esc ++ str "[1mmodule.register()"
     ++ esc ++ str "[22m").

Definition bundling : JsError :=
  nativeError (str "Error")
    (str "Failed to " ++ esc ++ str "[1mbundle" ++ esc ++ str "[22m asset").

Definition serialized : JsError :=
  nativeError (str "Error")
    (str "serialized" ++ esc ++ str "[0mError: `eyJuYW1lIjoiU2FtcGxlRXJyb3IifQ==`").

(** A role whose name reads as a serialized structured error once the code
    inside it is stripped. *)
Definition serializedRole : JsError :=
  nativeError (str "Error")
    (str "Role serialized" ++ esc
     ++ str "[0mError: `eyJuYW1lIjoiU2FtcGxlRXJyb3IifQ==` is invalid or cannot be assumed").

End Ansi.

Module Retry.

(** A deployment failure on two lines, the first of which ends in the text of
    a missing file. *)
Definition error : JsError :=
  nativeError (str "Error")
    (str "The stack named amplify-app failed to deploy: no such file or directory, open 'cdk.out/manifest.json'"
     ++ [10%N] ++ str "Retry the deployment").

End Retry.

Module Tokens.

Definition expired : JsError :=
  nativeError (str "Error")
    (str "Deployment failed: ExpiredToken: The security token included in the request is expired"
     ++ [10%N] ++ str "    at deploy (cdk.js:1:1)").

End Tokens.

Module Build.

(** The report of a failed transformation, with the line feed that ends
    it. *)
Definition error : JsError :=
  nativeError (str "Error")
    (str "Error: Transform failed with 1 error:" ++ [10%N]
     ++ str "/app/amplify/data/resource.ts:16:0: ERROR: Expected ; but found x"
     ++ [10%N]).

End Build.

(* ================================================================== *)
(** ** Strings and lists: basic facts *)

Lemma jsstring_eqb_eq : forall a b : jsstring, JsString.eqb a b = true <-> a = b.
Proof.
  induction a as [|x a IH]; destruct b as [|y b]; simpl; split;
    try congruence; try discriminate.
  - intros H. apply andb_true_iff in H as [Hx Hab].
    apply N.eqb_eq in Hx. apply IH in Hab. congruence.
  - intros H. injection H as -> ->.
    rewrite N.eqb_refl. simpl. now apply IH.
Qed.

Lemma jsstring_eqb_refl : forall a : jsstring, JsString.eqb a a = true.
Proof. intros a. now apply jsstring_eqb_eq. Qed.

Lemma existsb_eqb_In : forall (n : jsstring) (l : list jsstring),
  existsb (fun k => JsString.eqb k n) l = true <-> In n l.
Proof.
  intros n l. rewrite existsb_exists. split.
  - intros [k [Hin Hk]]. apply jsstring_eqb_eq in Hk. now subst.
  - intros Hin. exists n. split; [assumption | apply jsstring_eqb_refl].
Qed.

(** [Array.prototype.find] returns the element at the least index that
    satisfies the predicate. *)
Lemma find_least : forall (A : Type) (f : A -> bool) (l : list A) (i : nat)
  (x : A),
  nth_error l i = Some x ->
  f x = true ->
  (forall k y, k < i -> nth_error l k = Some y -> f y = false) ->
  find f l = Some x.
Proof.
  intros A f. induction l as [|a l IH]; intros i x Hnth Hx Hbefore.
  - destruct i; discriminate.
  - destruct i as [|i]; simpl in *.
    + injection Hnth as ->. now rewrite Hx.
    + rewrite (Hbefore 0 a) by (simpl; auto; lia).
      apply (IH i); auto.
      intros k y Hk Hy. apply (Hbefore (S k) y); [lia | assumption].
Qed.


Lemma find_not_after : forall (A : Type) (f : A -> bool) (l : list A)
  (i : nat) (x : A),
  nth_error l i = Some x ->
  f x = true ->
  exists k y, k <= i /\ nth_error l k = Some y /\ find f l = Some y.
Proof.
  intros A f. induction l as [|a l IH]; intros i x Hnth Hx.
  - destruct i; discriminate.
  - simpl. destruct (f a) eqn:Ha.
    + exists 0, a. repeat split; auto; lia.
    + destruct i as [|i]; simpl in Hnth.
      * injection Hnth as ->. congruence.
      * destruct (IH i x Hnth Hx) as [k [y [Hk [Hy Hfind]]]].
        exists (S k), y. repeat split; auto; lia.
Qed.

Lemma map_fst_paired : forall (A B : Type) (f : A -> B) (l : list A),
  map fst (map (fun n => (n, f n)) l) = l.
Proof.
  intros A B f. induction l as [|a l IH]; simpl; [reflexivity|].
  now rewrite IH.
Qed.

(** A captured text without a dollar sign is substituted as it is. *)
Lemma GetSubstitution_plain : forall matched before after template,
  ~ In 36%N template ->
  GetSubstitution matched before after template = template.
Proof.
  intros matched before after. induction template as [|c rest IH];
    intros Hplain; [reflexivity|].
  simpl. destruct (N.eqb c 36) eqn:Hc.
  - apply N.eqb_eq in Hc. subst c. exfalso. apply Hplain. simpl; auto.
  - f_equal. apply IH. intros Hin. apply Hplain. simpl; auto.
Qed.

Lemma indexOf_split : forall (p s : jsstring) (i : nat),
  indexOf p s = Some i ->
  s = firstn i s ++ p ++ skipn (i + length p) s.
Proof.
  assert (Hprefix : forall p s : jsstring,
            startsWith p s = true -> s = p ++ skipn (length p) s).
  { induction p as [|x p IH]; intros s H; [reflexivity|].
    destruct s as [|y s]; [discriminate|]. simpl in H.
    apply andb_true_iff in H as [Hx Hp]. apply N.eqb_eq in Hx. subst y.
    simpl. f_equal. now apply IH. }
  intros p. induction s as [|c s IH]; intros i H.
  - simpl in H. destruct (startsWith p []) eqn:Hp; [|discriminate].
    injection H as <-. now apply Hprefix.
  - simpl in H. destruct (startsWith p (c :: s)) eqn:Hp.
    + injection H as <-. now apply Hprefix.
    + destruct (indexOf p s) as [k|] eqn:Hk; [|discriminate].
      injection H as <-. simpl. f_equal. now apply IH.
Qed.

(** With such a text, [replace] puts the text where the first occurrence
    of the placeholder stood. *)
Lemma replace_plain : forall (s p v : jsstring) (i : nat),
  indexOf p s = Some i ->
  ~ In 36%N v ->
  replace s p v = firstn i s ++ v ++ skipn (i + length p) s.
Proof.
  intros s p v i Hi Hplain. unfold replace. rewrite Hi.
  now rewrite GetSubstitution_plain.
Qed.

(* ================================================================== *)
(** ** The matcher: the bound on iterations is never reached *)

Section MatcherFacts.

Variable input : jsstring.

Lemma agreeFrom_later : forall i j c c',
  i <= j -> agreeFrom input i c c' -> agreeFrom input j c c'.
Proof.
  intros i j c c' Hij Hagree y Hy Hlen. apply Hagree; [lia | assumption].
Qed.

Lemma step_forwardOnly : forall ok, forwardOnly input (step input ok).
Proof.
  intros ok x c c' Hx Hagree. unfold step.
  destruct (nth_error input (endIndex x)) as [ch|] eqn:Hnth; [|reflexivity].
  destruct (ok ch); [|reflexivity].
  assert (Hlt : endIndex x < length input)
    by (apply nth_error_Some; congruence).
  apply Hagree; simpl; lia.
Qed.

Lemma repeatMatcher_step : forall m names fuel min max x c,
  repeatMatcher m names (S fuel) min max x c =
    match max with
    | Some 0 => c x
    | _ =>
        let xr := mkState (endIndex x) (clear names (captures x)) in
        if min =? 0 then
          match m xr (nextIteration m names fuel min max x c) with
          | Some z => Some z
          | None => c x
          end
        else m xr (nextIteration m names fuel min max x c)
    end.
Proof. reflexivity. Qed.

Lemma repeatMatcher_forwardOnly : forall m names,
  forwardOnly input m ->
  forall fuel min max,
    forwardOnly input (repeatMatcher m names fuel min max).
Proof.
  intros m names Hm. induction fuel as [|fuel IH]; intros min max x c c' Hx
    Hagree.
  - simpl. destruct max as [[|n]|]; [|reflexivity|reflexivity].
    apply Hagree; [lia | assumption].
  - rewrite !repeatMatcher_step.
    assert (Hcx : c x = c' x) by (apply Hagree; [lia | assumption]).
    assert (Hd : agreeFrom input (endIndex x)
                   (nextIteration m names fuel min max x c)
                   (nextIteration m names fuel min max x c')).
    { intros y Hy Hlen. unfold nextIteration.
      destruct ((min =? 0) && (endIndex y =? endIndex x)); [reflexivity|].
      apply IH; [assumption|]. now apply (agreeFrom_later (endIndex x)). }
    cbv zeta.
    rewrite (Hm (mkState (endIndex x) (clear names (captures x))) _ _ Hx Hd).
    rewrite Hcx. reflexivity.
Qed.

Lemma matcher_forwardOnly : forall r, forwardOnly input (matcher input r).
Proof.
  induction r as [|ch| |negated ranges|r1 IH1 r2 IH2|r1 IH1 r2 IH2
                 |min max r IH|name r IH| |l];
    intros x c c' Hx Hagree; cbn [matcher].
  - apply Hagree; [lia | assumption].
  - now apply step_forwardOnly.
  - now apply step_forwardOnly.
  - now apply step_forwardOnly.
  - apply IH1; [assumption|]. intros y Hy Hlen.
    apply IH2; [assumption|]. now apply (agreeFrom_later (endIndex x)).
  - rewrite (IH1 x c c' Hx Hagree), (IH2 x c c' Hx Hagree). reflexivity.
  - now apply (repeatMatcher_forwardOnly _ _ IH).
  - apply IH; [assumption|]. intros y Hy Hlen.
    apply Hagree; simpl; assumption.
  - destruct (endIndex x =? length input); [|reflexivity].
    apply Hagree; [lia | assumption].
  - destruct (_ && _); [reflexivity|]. apply Hagree; [lia | assumption].
Qed.

(** Any two bounds above [min] plus the input that remains give the same
    result: each iteration lowers [min] or consumes input. *)
Lemma repeatMatcher_fuel : forall m names,
  forwardOnly input m ->
  forall fuel fuel' min max x c,
    endIndex x <= length input ->
    min + (length input - endIndex x) < fuel ->
    min + (length input - endIndex x) < fuel' ->
    repeatMatcher m names fuel min max x c
    = repeatMatcher m names fuel' min max x c.
Proof.
  intros m names Hm.
  induction fuel as [|fuel IH]; intros fuel' min max x c Hx Hfuel Hfuel';
    [lia|].
  destruct fuel' as [|fuel']; [lia|].
  rewrite !repeatMatcher_step.
  assert (Hd : agreeFrom input (endIndex x)
                 (nextIteration m names fuel min max x c)
                 (nextIteration m names fuel' min max x c)).
  { intros y Hy Hlen. unfold nextIteration.
    destruct (min =? 0) eqn:Hmin; simpl.
    - apply Nat.eqb_eq in Hmin. subst min.
      destruct (endIndex y =? endIndex x) eqn:Hsame; [reflexivity|].
      apply Nat.eqb_neq in Hsame.
      apply IH; [assumption | simpl; lia | simpl; lia].
    - apply Nat.eqb_neq in Hmin.
      apply IH; [assumption | lia | lia]. }
  cbv zeta.
  rewrite (Hm (mkState (endIndex x) (clear names (captures x))) _ _ Hx Hd).
  reflexivity.
Qed.

(** The quantifier as [matcher] runs it equals the quantifier run with any
    larger bound. *)
Theorem matcher_repeat_unbounded : forall min max r x c extra,
  endIndex x <= length input ->
  matcher input (Repeat min max r) x c
  = repeatMatcher (matcher input r) (groupNames r)
      (repeatFuel input min x + extra) min max x c.
Proof.
  intros min max r x c extra Hx. cbn [matcher].
  apply repeatMatcher_fuel;
    [apply matcher_forwardOnly | assumption | | ];
    unfold repeatFuel; lia.
Qed.

End MatcherFacts.

(* ================================================================== *)
(** ** The matcher and the result of a match *)

Lemma exec_shape : forall (r : regex) (s : jsstring) (m : MatchResult),
  exec r s = Some m ->
  ncaptures m = ngroups r /\
  (groupNames r = [] -> groups m = None) /\
  (forall entries, groups m = Some entries ->
     map fst entries = groupNames r /\ groupNames r <> []).
Proof.
  intros r s m. unfold exec.
  destruct (search s r (length s) 0) as [[i y]|]; [|discriminate].
  intros H. injection H as <-. simpl.
  split; [reflexivity|]. split.
  - intros ->. reflexivity.
  - intros entries. destruct (groupNames r) as [|n ns] eqn:Hnames;
      [discriminate|].
    intros H. injection H as <-. split; [|discriminate].
    apply (map_fst_paired jsstring (option jsstring)
             (fun n => lookup n (captures y)) (n :: ns)).
Qed.

(* ================================================================== *)
(** ** The branches of [getAmplifyError] *)

Lemma getAmplifyError_table : forall env error deploymentType,
  reachesTable env error ->
  getAmplifyError env error deploymentType = scanTable env error.
Proof.
  intros env error dt [[Hstderr [Hamplify Hcdk]] [Hnode Hbundle]].
  unfold getAmplifyError, scanTable.
  now rewrite Hstderr, Hamplify, Hcdk, Hnode, Hbundle.
Qed.

Lemma getCDKError_cases : forall error,
  getCDKError error = Return None \/
  (exists e, getCDKError error = Throw e /\ name e = str "SyntaxError") \/
  (exists e, getCDKError error = Return (Some e) /\
     In (name e) [str "AuthenticationError"; str "BackendBuildError";
                  str "CDKContextProviderFault"]).
Proof.
  intros error. unfold getCDKError.
  destruct (isAuthenticationError (toolkit error)).
  { right. right. eexists. split; [reflexivity | simpl; auto]. }
  destruct (isAssemblyError (toolkit error)).
  { right. right. eexists. split; [reflexivity | simpl; auto]. }
  destruct (isContextProviderError (toolkit error)).
  { right. right. eexists. split; [reflexivity | simpl; auto]. }
  destruct (existsb _ nativeErrorNames).
  { right. left. eexists. split; reflexivity. }
  destruct (isToolkitError (toolkit error)); now left.
Qed.

Lemma setMessage_same : forall e : JsError, setMessage e (message e) = e.
Proof. now intros []. Qed.

Lemma applyKnownError_kind : forall rule errorMessage error,
  exists r,
    completion (applyKnownError rule errorMessage error) = Return r /\
    name r = errorName rule /\
    classification r = Some (classificationOf rule).
Proof.
  intros rule errorMessage error. unfold applyKnownError.
  destruct (exec _ _) as [m|]; [destruct (1 <? _); [destruct (groups m)|]|];
    simpl; destruct (classificationOf rule);
    eexists; repeat split; reflexivity.
Qed.

Lemma knownErrors_kinds : forall (env : Collaborators) (rule : KnownError),
  In rule (getKnownErrors env) -> In (errorName rule) taxonomy.
Proof.
  intros env rule Hin. apply existsb_eqb_In.
  assert (Hall : forallb (fun r => inKinds taxonomy (errorName r))
                   (getKnownErrors env) = true) by (vm_compute; reflexivity).
  rewrite forallb_forall in Hall. exact (Hall rule Hin).
Qed.

(** A group whose placeholder appears in neither template leaves the
    templates and the underlying error as they are. *)
Lemma substituteGroup_unreferenced :
  forall (entries : list (jsstring * option jsstring)) (st : Rewriting),
    (forall n, In n (map fst entries) ->
       includes (rwMessage st) (str "{" ++ n ++ str "}") = false /\
       includes (rwResolution st) (str "{" ++ n ++ str "}") = false) ->
    fold_left substituteGroup entries st = st.
Proof.
  induction entries as [|entry entries IH]; intros st Hnone; [reflexivity|].
  simpl. unfold substituteGroup at 2.
  destruct (Hnone (fst entry)) as [Hm Hr]; [simpl; auto|].
  rewrite Hm, Hr. simpl. apply IH.
  intros n Hn. apply Hnone. simpl; auto.
Qed.


(** The caller's error after a call differs from the error passed in at
    most in its message. *)
Lemma applyKnownError_frame : forall rule errorMessage error,
  errorAfter (applyKnownError rule errorMessage error) = error \/
  exists m,
    exec (errorRegex rule) errorMessage = Some m /\
    0 < ngroups (errorRegex rule) /\
    groupNames (errorRegex rule) = [] /\
    errorAfter (applyKnownError rule errorMessage error)
    = setMessage error (matched m) /\
    cause_of_return (completion (applyKnownError rule errorMessage error))
    = Some (Some (setMessage error (matched m))).
Proof.
  intros rule errorMessage error. unfold applyKnownError.
  destruct (exec (errorRegex rule) errorMessage) as [m|] eqn:Hexec;
    [|now left].
  destruct (exec_shape _ _ _ Hexec) as [Hn [Hnone Hsome]].
  destruct (1 <? S (ncaptures m)) eqn:Hlen; [|now left].
  destruct (groups m) as [entries|] eqn:Hgroups; [now left|].
  right. exists m. split; [reflexivity|].
  apply Nat.ltb_lt in Hlen. split; [lia|]. split.
  - destruct (groupNames (errorRegex rule)) as [|n ns] eqn:Hnames;
      [reflexivity|].
    unfold exec in Hexec.
    destruct (search errorMessage (errorRegex rule) (length errorMessage) 0)
      as [[i y]|]; [|discriminate].
    injection Hexec as <-. simpl in Hgroups. rewrite Hnames in Hgroups.
    discriminate.
  - simpl. split; [reflexivity|].
    destruct (classificationOf rule); reflexivity.
Qed.



(** [getAmplifyError] returns, except for an input whose name is one of the
    native error names: it completes abruptly only through the [throw] of
    [getCDKError]. *)
Lemma getAmplifyError_returns_unless_native_name :
  forall (env : Collaborators) (error : JsError)
         (deploymentType : option jsstring),
    (exists r, completion (getAmplifyError env error deploymentType)
               = Return r) \/
    (In (name error) nativeErrorNames /\
     exists e, completion (getAmplifyError env error deploymentType)
               = Throw e).
Proof.
  intros env error dt. unfold getAmplifyError.
  destruct (fromStderr env (message error)); [left; eexists; reflexivity|].
  destruct (isAmplifyError error); [left; eexists; reflexivity|].
  unfold getCDKError.
  destruct (isAuthenticationError (toolkit error));
    [left; eexists; reflexivity|].
  destruct (isAssemblyError (toolkit error)); [left; eexists; reflexivity|].
  destruct (isContextProviderError (toolkit error));
    [left; eexists; reflexivity|].
  destruct (existsb _ nativeErrorNames) eqn:Hname.
  { right. split; [now apply existsb_eqb_In | eexists; reflexivity]. }
  left.
  assert (Hscan : forall (error' : JsError) (o : option KnownError)
                         (errorMessage : jsstring),
    exists r,
      completion
        match o with
        | Some matchingError =>
            applyKnownError matchingError errorMessage error'
        | None => mkOutcome (Return (fromError error')) error'
        end = Return r).
  { intros error' [rule|] errorMessage; [|eexists; reflexivity].
    unfold applyKnownError.
    destruct (exec _ _) as [m|]; [|eexists; reflexivity].
    destruct (1 <? _); [|eexists; reflexivity].
    destruct (groups m); eexists; reflexivity. }
  destruct (isToolkitError (toolkit error));
    (destruct (includes (message error) _); [eexists; reflexivity|];
     destruct (includes (message error) _); [eexists; reflexivity|];
     apply Hscan).
Qed.

(** Every value [getAmplifyError] returns is a structured error, given that
    the deserializer yields structured errors. *)
Lemma getAmplifyError_returns_structured :
  forall (env : Collaborators) (error r : JsError)
         (deploymentType : option jsstring),
    (forall stderr a, fromStderr env stderr = Some a ->
                      isAmplifyError a = true) ->
    completion (getAmplifyError env error deploymentType) = Return r ->
    isAmplifyError r = true.
Proof.
  intros env error r dt Hwire. unfold getAmplifyError.
  destruct (fromStderr env (message error)) as [a|] eqn:Hstderr.
  { simpl. intros H. injection H as <-. eauto. }
  destruct (isAmplifyError error) eqn:Hamplify.
  { simpl. intros H. now injection H as <-. }
  unfold getCDKError.
  destruct (isAuthenticationError (toolkit error)).
  { simpl. intros H. now injection H as <-. }
  destruct (isAssemblyError (toolkit error)).
  { simpl. intros H. now injection H as <-. }
  destruct (isContextProviderError (toolkit error)).
  { simpl. intros H. now injection H as <-. }
  destruct (existsb _ nativeErrorNames); [discriminate|].
  assert (Hscan : forall (o : option KnownError) (errorMessage : jsstring),
    completion
      match o with
      | Some matchingError => applyKnownError matchingError errorMessage error
      | None => mkOutcome (Return (fromError error)) error
      end = Return r -> isAmplifyError r = true).
  { intros [rule|] errorMessage;
      [|simpl; intros H; now injection H as <-].
    unfold applyKnownError.
    destruct (exec _ _) as [m|]; [destruct (1 <? _); [destruct (groups m)|]|];
      simpl; destruct (classificationOf rule);
      intros H; now injection H as <-. }
  destruct (isToolkitError (toolkit error));
    (destruct (includes (message error) _);
       [simpl; intros H; now injection H as <-|];
     destruct (includes (message error) _);
       [simpl; intros H; now injection H as <-|];
     apply Hscan).
Qed.

(** Any collaborator that recognizes some message gives such an input. *)
Lemma embedded_error_wins_over_structured_input :
  forall (env : Collaborators) (error embedded : JsError)
         (deploymentType : option jsstring),
    fromStderr env (message error) = Some embedded ->
    getAmplifyError env error deploymentType
    = mkOutcome (Return embedded) error.
Proof.
  intros env error embedded dt H. unfold getAmplifyError. now rewrite H.
Qed.

(* ================================================================== *)
(** ** Totality *)

(** C1 (the code departs from the claim).  The claim says every branch of
    [getCDKError] yields a returned value.  For an input that the earlier
    probes pass over and whose [name] is one of [TypeError],
    [TransformError], [ReferenceError], [SyntaxError], the source executes
    [throw new AmplifyUserError('SyntaxError', ...)] where its sibling
    branches execute [return]: [getAmplifyError] completes abruptly with
    that structured error, and the caller's error is left as it was. *)
Theorem getAmplifyError_throws_for_native_error_names :
  forall (env : Collaborators) (error : JsError)
         (deploymentType : option jsstring),
    fromStderr env (message error) = None ->
    isAmplifyError error = false ->
    isAuthenticationError (toolkit error) = false ->
    isAssemblyError (toolkit error) = false ->
    isContextProviderError (toolkit error) = false ->
    In (name error) nativeErrorNames ->
    getAmplifyError env error deploymentType =
      mkOutcome
        (Throw
           (AmplifyUserError (str "SyntaxError")
              (str "Unable to build the Amplify backend definition.")
              (Some (str "Check the Caused by error and fix any issues in your backend code"))
              (Some error)))
        error.
Proof.
  intros env error dt Hstderr Hamplify Hauth Hasm Hctx Hname.
  unfold getAmplifyError, getCDKError.
  rewrite Hstderr, Hamplify, Hauth, Hasm, Hctx.
  apply existsb_eqb_In in Hname.
  replace (existsb (fun errorName => JsString.eqb errorName (name error))
             nativeErrorNames) with true.
  reflexivity.
Qed.

Lemma getAmplifyError_throws_for_native_error_names_witness :
  fromStderr Sample.collaborators (message Inputs.typeError) = None /\
  isAmplifyError Inputs.typeError = false /\
  In (name Inputs.typeError) nativeErrorNames /\
  completion (getAmplifyError Sample.collaborators Inputs.typeError None) =
    Throw
      (AmplifyUserError (str "SyntaxError")
         (str "Unable to build the Amplify backend definition.")
         (Some (str "Check the Caused by error and fix any issues in your backend code"))
         (Some Inputs.typeError)).
Proof.
  assert (Hstderr :
    fromStderr Sample.collaborators (message Inputs.typeError) = None)
    by reflexivity.
  assert (Hname : In (name Inputs.typeError) nativeErrorNames)
    by (simpl; auto).
  split; [exact Hstderr|]. split; [reflexivity|]. split; [exact Hname|].
  rewrite (getAmplifyError_throws_for_native_error_names
             Sample.collaborators Inputs.typeError None
             Hstderr eq_refl eq_refl eq_refl eq_refl Hname).
  reflexivity.
Defined.

(* ================================================================== *)
(** ** The kinds of the returned errors *)

(** C2, as stated, fails: the context-provider branch of [getCDKError]
    returns the kind [CDKContextProviderFault], which the enumerated set
    does not contain. *)
Lemma context_provider_fault_outside_taxonomy :
  exists r : JsError,
    completion
      (getAmplifyError Sample.collaborators Inputs.contextProviderError None)
    = Return r /\
    name r = str "CDKContextProviderFault" /\
    ~ In (name r) taxonomy.
Proof.
  eexists. split; [reflexivity|]. split; [reflexivity|].
  intros Hin. apply existsb_eqb_In in Hin. vm_compute in Hin. discriminate.
Qed.

(** C2 (amended).  For every input error that carries no serialized
    structured error in its message and is not itself a structured error,
    the kind of the error [getAmplifyError] returns is one of the
    enumerated set or [CDKContextProviderFault]. *)
Theorem getAmplifyError_kind_in_taxonomy :
  forall (env : Collaborators) (error r : JsError)
         (deploymentType : option jsstring),
    fromStderr env (message error) = None ->
    isAmplifyError error = false ->
    completion (getAmplifyError env error deploymentType) = Return r ->
    In (name r) (taxonomy ++ [str "CDKContextProviderFault"]).
Proof.
  intros env error r dt Hstderr Hamplify.
  assert (Hknown : forall n, inKinds taxonomy n = true ->
            In n (taxonomy ++ [str "CDKContextProviderFault"])).
  { intros n Hn. apply in_or_app. left. now apply existsb_eqb_In. }
  unfold getAmplifyError. rewrite Hstderr, Hamplify.
  destruct (getCDKError_cases error) as [He | [[e [He _]] | [e [He Hkind]]]];
    rewrite He.
  - destruct (includes (message error) _).
    { cbn [completion]. intros H. injection H as <-. now apply Hknown. }
    destruct (includes (message error) _).
    { cbn [completion]. intros H. injection H as <-. now apply Hknown. }
    destruct (find _ _) as [rule|] eqn:Hfind.
    + apply find_some in Hfind as [Hin _].
      destruct (applyKnownError_kind rule (stripANSI env (message error))
                  error) as [r' [Hr' [Hname _]]].
      rewrite Hr'. intros H. injection H as <-. rewrite Hname.
      apply in_or_app. left. exact (knownErrors_kinds env rule Hin).
    + cbn [completion]. intros H. injection H as <-. now apply Hknown.
  - discriminate.
  - cbn [completion]. intros H. injection H as <-.
    destruct Hkind as [Hk | [Hk | [Hk | []]]]; rewrite <- Hk.
    + now apply Hknown.
    + now apply Hknown.
    + apply in_or_app. right. left. reflexivity.
Qed.

Lemma getAmplifyError_kind_in_taxonomy_witness :
  fromStderr Sample.collaborators (message Inputs.contextProviderError)
  = None /\
  isAmplifyError Inputs.contextProviderError = false /\
  In (str "CDKContextProviderFault")
    (taxonomy ++ [str "CDKContextProviderFault"]).
Proof.
  split; [reflexivity|]. split; [reflexivity|].
  exact (getAmplifyError_kind_in_taxonomy Sample.collaborators
           Inputs.contextProviderError _ None eq_refl eq_refl eq_refl).
Defined.

(* ================================================================== *)
(** ** Placeholder substitution *)

(** For the message of a role that cannot be assumed the captured role is
    put in the place of [{roleArn}], the error is a user error of kind
    [InvalidOrCannotAssumeRoleError], and no cause is attached. *)
Lemma getAmplifyError_role_substituted :
  getAmplifyError Sample.collaborators Placeholders.role None =
    mkOutcome
      (Return
         (mkError (str "InvalidOrCannotAssumeRoleError")
            (str "Role arn:aws:iam::123:role/Foo is invalid or cannot be assumed")
            (Some ERROR)
            (Some (str "Ensure the role exists and AWS credentials have an IAM policy that grants sts:AssumeRole for the role"))
            None notToolkit))
      Placeholders.role.
Proof. vm_compute. reflexivity. Qed.

(** C3 (the code departs from the claim).  The source substitutes with
    [String.prototype.replace] and a string pattern, which reads the
    captured text as a replacement template.  For the message
    [ENOENT: no such file or directory, open '/mnt/c$'] the rule for
    [no such file or directory] captures [open '/mnt/c$'], whose last two
    characters are the pattern for the text after the match: the returned
    message and resolution end in [open '/mnt/c], not in the captured
    text.  For a captured [$&] the placeholder is put back in place. *)
Theorem getAmplifyError_capture_read_as_template :
  getAmplifyError Sample.collaborators Placeholders.share None =
    mkOutcome
      (Return
         (mkError (str "FileNotFoundError")
            (str "Failed to open '/mnt/c")
            (Some ERROR)
            (Some (str "File or directory not found. Failed to open '/mnt/c"))
            None notToolkit))
      Placeholders.share
  /\
  getAmplifyError Sample.collaborators Placeholders.dollarRole None =
    mkOutcome
      (Return
         (mkError (str "InvalidOrCannotAssumeRoleError")
            (str "Role {roleArn} is invalid or cannot be assumed")
            (Some ERROR)
            (Some (str "Ensure the role exists and AWS credentials have an IAM policy that grants sts:AssumeRole for the role"))
            None notToolkit))
      Placeholders.dollarRole.
Proof. split; vm_compute; reflexivity. Qed.

(* ================================================================== *)
(** ** The rule table and the caller's error object *)




(* ================================================================== *)
(** ** The scan of the rule table *)




(* ================================================================== *)
(** ** Structured input *)

(** C6, as stated, fails: the probe of the message for a serialized
    structured error runs before the capability check, so a structured
    error whose message carries one is not returned; the deserialized error
    is. *)
Lemma structured_input_replaced_by_embedded_error :
  isAmplifyError Inputs.wrappedChildFailure = true /\
  completion
    (getAmplifyError Sample.collaborators Inputs.wrappedChildFailure None)
  <> Return Inputs.wrappedChildFailure.
Proof.
  split; [reflexivity|].
  vm_compute. intros H. discriminate H.
Qed.

(** C6 (amended).  If the input error is a structured error by the
    capability check and its message carries no serialized structured
    error, [getAmplifyError] returns that same error unchanged and leaves
    it untouched; so classifying it once more, under any deployment type,
    returns it again. *)
Theorem getAmplifyError_structured_passthrough :
  forall (env : Collaborators) (error : JsError)
         (deploymentType : option jsstring),
    isAmplifyError error = true ->
    fromStderr env (message error) = None ->
    getAmplifyError env error deploymentType = mkOutcome (Return error) error
    /\ forall (r : JsError) (again : option jsstring),
         completion (getAmplifyError env error deploymentType) = Return r ->
         getAmplifyError env r again = mkOutcome (Return r) r.
Proof.
  intros env error dt Hamplify Hstderr.
  assert (Hpass : forall d,
    getAmplifyError env error d = mkOutcome (Return error) error).
  { intros d. unfold getAmplifyError. now rewrite Hstderr, Hamplify. }
  split; [apply Hpass|].
  intros r again Hr. rewrite Hpass in Hr. simpl in Hr.
  injection Hr as <-. apply Hpass.
Qed.

Lemma getAmplifyError_structured_passthrough_witness :
  isAmplifyError Sample.sampleError = true /\
  fromStderr Sample.collaborators (message Sample.sampleError) = None /\
  getAmplifyError Sample.collaborators Sample.sampleError
    (Some (str "branch"))
  = mkOutcome (Return Sample.sampleError) Sample.sampleError.
Proof.
  split; [reflexivity|]. split; [reflexivity|].
  exact (proj1 (getAmplifyError_structured_passthrough
                  Sample.collaborators Sample.sampleError
                  (Some (str "branch")) eq_refl eq_refl)).
Defined.

(* ================================================================== *)
(** ** The two special cases ahead of the table *)

(** C7, as stated, fails: an error that is neither structured nor an error
    of the toolkit, and whose message has the phrase, is not reported as
    [NodeVersionNotSupportedError] when its name is one of the native names;
    [getCDKError] throws for it before the phrase is looked for. *)
Lemma node_version_phrase_on_type_error_throws :
  isAmplifyError Inputs.nodeVersionTypeError = false /\
  toolkit Inputs.nodeVersionTypeError = notToolkit /\
  includes (message Inputs.nodeVersionTypeError)
    (str "does not support module.register()") = true /\
  kindOf (getAmplifyError Sample.collaborators Inputs.nodeVersionTypeError None)
  = None /\
  exists thrown : JsError,
    completion
      (getAmplifyError Sample.collaborators Inputs.nodeVersionTypeError None)
    = Throw thrown /\
    name thrown = str "SyntaxError".
Proof.
  split; [reflexivity|]. split; [reflexivity|]. split; [reflexivity|].
  split; [reflexivity|]. eexists. split; reflexivity.
Qed.

(** C7 (amended).  For an input that carries no serialized structured error,
    is no structured error and is passed over by [getCDKError] (no probe of
    the toolkit answers and its name is none of the native names), and whose
    message contains [does not support module.register()], the result is
    the user error [NodeVersionNotSupportedError] with message [Unable to
    deploy due to unsupported node version] and the input as cause; its
    resolution is the CI/CD instruction when [deploymentType] is [branch]
    and the direct upgrade instruction for any other or no deployment
    type. *)
Theorem getAmplifyError_node_version :
  forall (env : Collaborators) (error : JsError)
         (deploymentType : option jsstring),
    unhandled env error ->
    includes (message error) (str "does not support module.register()")
    = true ->
    exists resolutionMessage : jsstring,
      getAmplifyError env error deploymentType =
        mkOutcome
          (Return
             (mkError (str "NodeVersionNotSupportedError")
                (str "Unable to deploy due to unsupported node version")
                (Some ERROR) (Some resolutionMessage) (Some error)
                notToolkit))
          error
      /\ (deploymentType = Some (str "branch") ->
          resolutionMessage =
            str "Upgrade the node version in your CI/CD environment. If you are using Amplify Hosting for your backend builds, you can add `nvm install 18.x` or `nvm install 20.x` in your `amplify.yml` before the `pipeline-deploy` command")
      /\ (deploymentType <> Some (str "branch") ->
          resolutionMessage =
            str "Upgrade to node `^18.19.0`, `^20.6.0,` or `>=22`").
Proof.
  intros env error dt [Hstderr [Hamplify Hcdk]] Hnode.
  exists (nodeVersionResolution dt). split; [|split].
  - unfold getAmplifyError.
    now rewrite Hstderr, Hamplify, Hcdk, Hnode.
  - intros ->. reflexivity.
  - intros Hdt. unfold nodeVersionResolution.
    destruct dt as [t|]; [|reflexivity].
    destruct (JsString.eqb t (str "branch")) eqn:Ht; [|reflexivity].
    apply jsstring_eqb_eq in Ht. congruence.
Qed.

Lemma getAmplifyError_node_version_witness :
  unhandled Sample.collaborators Inputs.nodeVersion /\
  includes (message Inputs.nodeVersion)
    (str "does not support module.register()") = true /\
  exists resolutionMessage : jsstring,
    getAmplifyError Sample.collaborators Inputs.nodeVersion
      (Some (str "sandbox")) =
      mkOutcome
        (Return
           (mkError (str "NodeVersionNotSupportedError")
              (str "Unable to deploy due to unsupported node version")
              (Some ERROR) (Some resolutionMessage)
              (Some Inputs.nodeVersion) notToolkit))
        Inputs.nodeVersion
    /\ resolutionMessage =
         str "Upgrade to node `^18.19.0`, `^20.6.0,` or `>=22`".
Proof.
  assert (Hunhandled : unhandled Sample.collaborators Inputs.nodeVersion)
    by (repeat split; reflexivity).
  assert (Hnode : includes (message Inputs.nodeVersion)
                    (str "does not support module.register()") = true)
    by reflexivity.
  split; [exact Hunhandled|]. split; [exact Hnode|].
  destruct (getAmplifyError_node_version Sample.collaborators
              Inputs.nodeVersion (Some (str "sandbox")) Hunhandled Hnode)
    as [resolutionMessage [Hresult [_ Hdirect]]].
  exists resolutionMessage. split; [exact Hresult|].
  apply Hdirect. intros H. discriminate H.
Defined.

(* ================================================================== *)
(** ** Causes *)

(** C8, as stated, fails: the cause is the caller's error object, and the
    call has overwritten its message when the rule applied has capture
    groups and names none.  The rule for [EACCES], with its one unnamed
    group, leaves a cause whose message is the matched text, not the
    message of the error passed in. *)
Lemma cause_differs_from_error_passed_in :
  reachesTable Sample.collaborators Permission.error /\
  option_map (fun R => (errorName R, groupNames (errorRegex R)))
    (find (fun knownError =>
             test (errorRegex knownError)
               (stripANSI Sample.collaborators (message Permission.error)))
       (getKnownErrors Sample.collaborators))
  = Some (str "FilePermissionsError", []) /\
  cause_of_return
    (completion (getAmplifyError Sample.collaborators Permission.error None))
  <> Some (Some Permission.error) /\
  cause_of_return
    (completion (getAmplifyError Sample.collaborators Permission.error None))
  = Some
      (Some
         (nativeError (str "Error")
            (str "EACCES: permission denied, open '/srv/app/amplify_outputs.json'"))).
Proof.
  split; [repeat split; reflexivity|].
  split; [vm_compute; reflexivity|].
  split; [|vm_compute; reflexivity].
  vm_compute. intros H. discriminate H.
Qed.

(** C8 (amended).  When the rule applied names no capture group, or none of
    the names of its groups appears as a placeholder in its templates, the
    returned error has the caller's error object as its cause, in the state
    the call leaves it in.  That is the error as it was passed in when the
    pattern has no capture group or names one.  When the pattern has
    capture groups and names none, it is the error passed in with its
    message replaced by the text the pattern matched in the message
    stripped of ANSI codes.  For the message [Access Denied: xyz] the kind
    is [AccessDeniedError] and the cause is the input error. *)
Theorem getAmplifyError_cause_preserved :
  (forall (env : Collaborators) (error : JsError)
          (deploymentType : option jsstring) (R : KnownError),
     reachesTable env error ->
     find (fun knownError =>
             test (errorRegex knownError) (stripANSI env (message error)))
       (getKnownErrors env) = Some R ->
     (forall n, In n (groupNames (errorRegex R)) ->
        includes (humanReadableErrorMessage R) (str "{" ++ n ++ str "}")
        = false /\
        includes (resolutionMessage R) (str "{" ++ n ++ str "}") = false) ->
     exists r : JsError,
       completion (getAmplifyError env error deploymentType) = Return r /\
       name r = errorName R /\
       cause r = Some (errorAfter (getAmplifyError env error deploymentType))
       /\ (ngroups (errorRegex R) = 0 \/ groupNames (errorRegex R) <> [] ->
           errorAfter (getAmplifyError env error deploymentType) = error /\
           cause r = Some error)
       /\ (0 < ngroups (errorRegex R) -> groupNames (errorRegex R) = [] ->
           exists m : MatchResult,
             exec (errorRegex R) (stripANSI env (message error)) = Some m /\
             cause r = Some (setMessage error (matched m)) /\
             message (errorAfter (getAmplifyError env error deploymentType))
             = matched m /\
             name (errorAfter (getAmplifyError env error deploymentType))
             = name error /\
             cause (errorAfter (getAmplifyError env error deploymentType))
             = cause error))
  /\
  (forall (env : Collaborators) (error : JsError)
          (deploymentType : option jsstring),
     unhandled env error ->
     message error = str "Access Denied: xyz" ->
     stripANSI env (message error) = message error ->
     getAmplifyError env error deploymentType =
       mkOutcome
         (Return
            (mkError (str "AccessDeniedError")
               (str "The deployment role does not have sufficient permissions to perform this deployment.")
               (Some ERROR)
               (Some (str "Ensure your deployment role has the AmplifyBackendDeployFullAccess role along with any additional permissions required to deploy your backend definition."))
               (Some error) notToolkit))
         error).
Proof.
  split.
  - intros env error dt R Hreach Hfind Hunref.
    rewrite (getAmplifyError_table env error dt Hreach).
    unfold scanTable. rewrite Hfind.
    apply find_some in Hfind as [_ Htest]. unfold test in Htest.
    set (errorMessage := stripANSI env (message error)) in *.
    unfold applyKnownError.
    destruct (exec (errorRegex R) errorMessage) as [m|] eqn:Hexec;
      [|discriminate].
    destruct (exec_shape _ _ _ Hexec) as [Hn [Hnone Hsome]].
    destruct (1 <? S (ncaptures m)) eqn:Hlen.
    + destruct (groups m) as [entries|] eqn:Hgroups.
      * destruct (Hsome entries eq_refl) as [Hkeys Hnamed].
        rewrite substituteGroup_unreferenced
          by (cbn [rwMessage rwResolution]; rewrite Hkeys; exact Hunref).
        cbn [rwMessage rwResolution underlyingError completion errorAfter].
        eexists. split; [reflexivity|].
        destruct (classificationOf R); cbn [name cause AmplifyUserError
                                              AmplifyFault];
          (split; [reflexivity|]; split; [reflexivity|];
           split; [intros _; split; reflexivity|];
           intros _ Hnames; now contradiction Hnamed).
      * assert (Hnames : groupNames (errorRegex R) = []).
        { destruct (groupNames (errorRegex R)) as [|n ns] eqn:Hgn;
            [reflexivity|].
          unfold exec in Hexec.
          destruct (search errorMessage (errorRegex R)
                      (length errorMessage) 0) as [[i y]|];
            [|discriminate].
          injection Hexec as <-. simpl in Hgroups. rewrite Hgn in Hgroups.
          discriminate. }
        apply Nat.ltb_lt in Hlen.
        cbn [rwMessage rwResolution underlyingError completion errorAfter].
        eexists. split; [reflexivity|].
        destruct (classificationOf R); cbn [name cause AmplifyUserError
                                              AmplifyFault];
          (split; [reflexivity|]; split; [reflexivity|];
           split; [intros [Hzero|Hnamed]; [lia | now contradiction Hnamed]|];
           intros _ _; exists m; repeat split; reflexivity).
    + apply Nat.ltb_ge in Hlen.
      cbn [rwMessage rwResolution underlyingError completion errorAfter].
      eexists. split; [reflexivity|].
      destruct (classificationOf R); cbn [name cause AmplifyUserError
                                            AmplifyFault];
        (split; [reflexivity|]; split; [reflexivity|];
         split; [intros _; split; reflexivity|];
         intros Hpos _; lia).
  - intros env error dt Hunhandled Hmessage Hstrip.
    assert (Hreach : reachesTable env error).
    { split; [exact Hunhandled|]. rewrite Hmessage. split; reflexivity. }
    rewrite (getAmplifyError_table env error dt Hreach).
    unfold scanTable. rewrite Hstrip, Hmessage.
    vm_compute. reflexivity.
Qed.

Lemma getAmplifyError_cause_preserved_witness :
  reachesTable Sample.collaborators AccessDenied.error /\
  reachesTable Sample.collaborators Permission.error /\
  (exists r : JsError,
     completion (getAmplifyError Sample.collaborators AccessDenied.error None)
     = Return r /\
     name r = str "AccessDeniedError" /\
     cause r = Some AccessDenied.error) /\
  (exists r : JsError,
     completion (getAmplifyError Sample.collaborators Permission.error None)
     = Return r /\
     name r = str "FilePermissionsError" /\
     cause r
     = Some
         (setMessage Permission.error
            (str "EACCES: permission denied, open '/srv/app/amplify_outputs.json'"))).
Proof.
  assert (Hreach : reachesTable Sample.collaborators AccessDenied.error)
    by (repeat split; reflexivity).
  assert (Hreach' : reachesTable Sample.collaborators Permission.error)
    by (repeat split; reflexivity).
  split; [exact Hreach|]. split; [exact Hreach'|]. split.
  - edestruct (proj1 getAmplifyError_cause_preserved Sample.collaborators
                 AccessDenied.error None)
      as [r [Hr [Hname [_ [Hsame _]]]]].
    { exact Hreach. }
    { vm_compute. reflexivity. }
    { intros n Hn. vm_compute in Hn. contradiction. }
    exists r. split; [exact Hr|]. split; [exact Hname|].
    apply Hsame. left. reflexivity.
  - edestruct (proj1 getAmplifyError_cause_preserved Sample.collaborators
                 Permission.error None)
      as [r [Hr [Hname [_ [_ Hunnamed]]]]].
    { exact Hreach'. }
    { vm_compute. reflexivity. }
    { intros n Hn. vm_compute in Hn. contradiction. }
    exists r. split; [exact Hr|]. split; [exact Hname|].
    destruct Hunnamed as [m [Hexec [Hcause _]]];
      [vm_compute; lia | reflexivity |].
    vm_compute in Hexec. injection Hexec as <-. exact Hcause.
Defined.

(** C9.  For an input that none of the earlier branches takes and whose
    message contains [Failed to bundle asset], the result is the user error
    [CDKAssetBundleError] with a fixed message and resolution and without a
    cause: the input error is not attached. *)
Theorem getAmplifyError_bundle_drops_cause :
  forall (env : Collaborators) (error : JsError)
         (deploymentType : option jsstring),
    unhandled env error ->
    includes (message error) (str "does not support module.register()")
    = false ->
    includes (message error) (str "Failed to bundle asset") = true ->
    getAmplifyError env error deploymentType =
      mkOutcome
        (Return
           (mkError (str "CDKAssetBundleError")
              (str "CDK failed to bundle your function code")
              (Some ERROR)
              (Some (str "Check the error messages above for mode details"))
              None notToolkit))
        error.
Proof.
  intros env error dt [Hstderr [Hamplify Hcdk]] Hnode Hbundle.
  unfold getAmplifyError.
  now rewrite Hstderr, Hamplify, Hcdk, Hnode, Hbundle.
Qed.

Lemma getAmplifyError_bundle_drops_cause_witness :
  unhandled Sample.collaborators Inputs.bundling /\
  includes (message Inputs.bundling)
    (str "does not support module.register()") = false /\
  includes (message Inputs.bundling) (str "Failed to bundle asset") = true /\
  cause_of_return
    (completion (getAmplifyError Sample.collaborators Inputs.bundling None))
  = Some None.
Proof.
  assert (Hunhandled : unhandled Sample.collaborators Inputs.bundling)
    by (repeat split; reflexivity).
  split; [exact Hunhandled|]. split; [reflexivity|]. split; [reflexivity|].
  rewrite (getAmplifyError_bundle_drops_cause Sample.collaborators
             Inputs.bundling None Hunhandled eq_refl eq_refl).
  reflexivity.
Defined.

(* ================================================================== *)
(** ** ANSI codes *)

(** C10.  The message is stripped of ANSI codes for the scan of the rule
    table only.  An input that the first three branches pass over and whose
    raw message contains neither [does not support module.register()] nor
    [Failed to bundle asset] is classified by the table on the stripped
    message, whatever the stripped message contains.  With the sample
    stripper: [Access Denied] within colour codes, and with a code between
    its two words, is an [AccessDeniedError]; a message whose stripped text
    contains the phrase of a special case, or a serialized structured error,
    while its raw text does not, takes none of these branches and falls
    through the table to the passthrough error. *)
Theorem getAmplifyError_strips_for_table_only :
  (forall (env : Collaborators) (error : JsError)
          (deploymentType : option jsstring),
     unhandled env error ->
     includes (message error) (str "does not support module.register()")
     = false ->
     includes (message error) (str "Failed to bundle asset") = false ->
     getAmplifyError env error deploymentType =
       match find (fun knownError =>
                     test (errorRegex knownError)
                       (stripANSI env (message error)))
               (getKnownErrors env) with
       | Some matchingError =>
           applyKnownError matchingError (stripANSI env (message error))
             error
       | None => mkOutcome (Return (fromError error)) error
       end)
  /\ kindOf (getAmplifyError Sample.collaborators Ansi.coloured None)
     = Some (str "AccessDeniedError")
  /\ (includes (message Ansi.interrupted) (str "Access Denied") = false /\
      kindOf (getAmplifyError Sample.collaborators Ansi.interrupted None)
      = Some (str "AccessDeniedError"))
  /\ (includes (Sample.stripAnsi (message Ansi.nodeVersion))
        (str "does not support module.register()") = true /\
      kindOf (getAmplifyError Sample.collaborators Ansi.nodeVersion None)
      = Some (str "unknown"))
  /\ (includes (Sample.stripAnsi (message Ansi.bundling))
        (str "Failed to bundle asset") = true /\
      getAmplifyError Sample.collaborators Ansi.bundling None
      = mkOutcome (Return (fromError Ansi.bundling)) Ansi.bundling)
  /\ (Sample.sampleFromStderr (Sample.stripAnsi (message Ansi.serialized))
      = Some Sample.sampleError /\
      kindOf (getAmplifyError Sample.collaborators Ansi.serialized None)
      = Some (str "unknown")).
Proof.
  split.
  { intros env error dt Hunhandled Hnode Hbundle.
    rewrite (getAmplifyError_table env error dt); [reflexivity|].
    repeat split; try assumption; apply Hunhandled. }
  repeat split; vm_compute; reflexivity.
Qed.

Lemma getAmplifyError_strips_for_table_only_witness :
  unhandled Sample.collaborators Ansi.nodeVersion /\
  includes (message Ansi.nodeVersion)
    (str "does not support module.register()") = false /\
  includes (message Ansi.nodeVersion) (str "Failed to bundle asset") = false /\
  getAmplifyError Sample.collaborators Ansi.nodeVersion (Some (str "branch"))
  = mkOutcome (Return (fromError Ansi.nodeVersion)) Ansi.nodeVersion.
Proof.
  assert (Hunhandled : unhandled Sample.collaborators Ansi.nodeVersion)
    by (repeat split; reflexivity).
  split; [exact Hunhandled|]. split; [reflexivity|]. split; [reflexivity|].
  rewrite (proj1 getAmplifyError_strips_for_table_only Sample.collaborators
             Ansi.nodeVersion (Some (str "branch"))
             Hunhandled eq_refl eq_refl).
  vm_compute. reflexivity.
Defined.

(* ================================================================== *)
(** ** Further facts about the table and repeated calls *)

(** In the table, with a formatter that renders a command without braces,
    every placeholder of a named group stands at most once in each template
    as the table has it.  A captured text may still bring in a placeholder
    of a later group. *)
Lemma placeholders_at_most_once :
  forallb placeholdersAtMostOnce (getKnownErrors Sample.collaborators) = true.
Proof. vm_compute. reflexivity. Qed.

(** The trailing line terminators of the rewritten message are removed. *)
Example trailingEol_removed :
  removeFirst trailingEol (str "a.ts:1:1: ERROR: Expected x" ++ [13; 10; 10]%N)
  = str "a.ts:1:1: ERROR: Expected x" /\
  removeFirst trailingEol ([10%N] ++ str "b.ts" ++ [10%N])
  = [10%N] ++ str "b.ts".
Proof. split; vm_compute; reflexivity. Qed.

(** Because the rule applied may overwrite the message of the caller's
    error, a second call on the same object can classify it otherwise: the
    generic deployment rule cuts the message after its first line, and the
    cut message then ends where the rule for a missing file wants it to. *)
Lemma second_call_on_same_object_differs :
  kindOf (getAmplifyError Sample.collaborators Retry.error None)
  = Some (str "CloudFormationDeploymentError") /\
  kindOf
    (getAmplifyError Sample.collaborators
       (errorAfter (getAmplifyError Sample.collaborators Retry.error None))
       None)
  = Some (str "FileNotFoundError").
Proof. split; vm_compute; reflexivity. Qed.

(** Classifying a result once more need not return it: the captured text
    comes from the stripped message, so the message of a result can carry a
    serialized structured error that the raw message of the input did not. *)
Lemma reclassification_can_differ :
  kindOf (getAmplifyError Sample.collaborators Ansi.serializedRole None)
  = Some (str "InvalidOrCannotAssumeRoleError") /\
  kindOf (reclassified Sample.collaborators Ansi.serializedRole)
  = Some (str "SampleError").
Proof. split; vm_compute; reflexivity. Qed.

(** Once the underlying error is dropped it stays dropped. *)
Lemma substituteGroup_keeps_dropped :
  forall (entries : list (jsstring * option jsstring)) (st : Rewriting),
    underlyingError st = None ->
    underlyingError (fold_left substituteGroup entries st) = None.
Proof.
  induction entries as [|entry entries IH]; intros st Hst; [assumption|].
  cbn [fold_left]. apply IH. unfold substituteGroup.
  destruct (includes (rwMessage st) _ || includes (rwResolution st) _);
    [reflexivity | assumption].
Qed.

(** A group whose placeholder stands in one of the templates makes the loop
    drop the underlying error. *)
Lemma substituteGroup_referenced_drops :
  forall (entries : list (jsstring * option jsstring)) (st : Rewriting)
         (n : jsstring),
    In n (map fst entries) ->
    (includes (rwMessage st) (str "{" ++ n ++ str "}")
     || includes (rwResolution st) (str "{" ++ n ++ str "}")) = true ->
    underlyingError (fold_left substituteGroup entries st) = None.
Proof.
  induction entries as [|entry entries IH]; intros st n Hin Href;
    [contradiction|].
  cbn [fold_left].
  destruct (includes (rwMessage st) (str "{" ++ fst entry ++ str "}")
            || includes (rwResolution st) (str "{" ++ fst entry ++ str "}"))
    eqn:Hentry.
  - apply substituteGroup_keeps_dropped. unfold substituteGroup.
    now rewrite Hentry.
  - assert (Hsame : substituteGroup st entry = st)
      by (unfold substituteGroup; now rewrite Hentry).
    rewrite Hsame. destruct Hin as [Hfirst | Hrest].
    + subst n. congruence.
    + now apply (IH st n).
Qed.

Lemma groupNames_counted : forall r : regex,
  length (groupNames r) <= ngroups r.
Proof.
  induction r as [|ch| |negated ranges|r1 IH1 r2 IH2|r1 IH1 r2 IH2
                 |min max r IH|name r IH| |l]; simpl; try lia.
  - rewrite length_app. lia.
  - rewrite length_app. lia.
  - destruct name; simpl; lia.
Qed.

(** For every rule and message: when the pattern matches and a named group
    has its placeholder in the message template or in the resolution
    template, the returned error has no cause, and the caller's error is
    left as it was. *)
Lemma applyKnownError_referenced_group_drops_cause :
  forall (rule : KnownError) (errorMessage : jsstring) (error : JsError)
         (n : jsstring),
    test (errorRegex rule) errorMessage = true ->
    In n (groupNames (errorRegex rule)) ->
    (includes (humanReadableErrorMessage rule) (str "{" ++ n ++ str "}")
     || includes (resolutionMessage rule) (str "{" ++ n ++ str "}")) = true ->
    cause_of_return (completion (applyKnownError rule errorMessage error))
    = Some None /\
    errorAfter (applyKnownError rule errorMessage error) = error.
Proof.
  intros rule errorMessage error n Htest Hin Href.
  unfold test in Htest. unfold applyKnownError.
  destruct (exec (errorRegex rule) errorMessage) as [m|] eqn:Hexec;
    [|discriminate].
  destruct (exec_shape _ _ _ Hexec) as [Hcount [_ Hsome]].
  pose proof (groupNames_counted (errorRegex rule)) as Hle.
  assert (Hlen : (1 <? S (ncaptures m)) = true).
  { apply Nat.ltb_lt. rewrite Hcount.
    destruct (groupNames (errorRegex rule)); [contradiction|].
    simpl in Hle. lia. }
  rewrite Hlen.
  destruct (groups m) as [entries|] eqn:Hgroups.
  - destruct (Hsome entries eq_refl) as [Hkeys _].
    assert (Hdropped :
      underlyingError
        (fold_left substituteGroup entries
           (mkRewriting (humanReadableErrorMessage rule)
              (resolutionMessage rule) (Some error))) = None).
    { apply (substituteGroup_referenced_drops entries _ n);
        [now rewrite Hkeys | exact Href]. }
    cbn [rwMessage rwResolution underlyingError completion errorAfter].
    rewrite Hdropped.
    split; [|reflexivity].
    destruct (classificationOf rule); reflexivity.
  - exfalso. unfold exec in Hexec.
    destruct (search errorMessage (errorRegex rule) (length errorMessage) 0)
      as [[i y]|]; [|discriminate].
    injection Hexec as <-. simpl in Hgroups.
    destruct (groupNames (errorRegex rule)); [contradiction | discriminate].
Qed.

Lemma applyKnownError_referenced_group_drops_cause_witness :
  exists rule : KnownError,
    nth_error (getKnownErrors Sample.collaborators) 8 = Some rule /\
    In (str "roleArn") (groupNames (errorRegex rule)) /\
    cause_of_return
      (completion
         (applyKnownError rule (message Placeholders.role) Placeholders.role))
    = Some None.
Proof.
  eexists. split; [reflexivity|]. split; [simpl; auto|].
  refine (proj1 (applyKnownError_referenced_group_drops_cause _
                   (message Placeholders.role) Placeholders.role
                   (str "roleArn") _ _ _)).
  - vm_compute. reflexivity.
  - simpl. auto.
  - vm_compute. reflexivity.
Defined.

(* ================================================================== *)
(** ** The matcher on plain texts *)

Lemma skipn_cons_nth : forall (A : Type) (s : list A) (i : nat) (c : A),
  nth_error s i = Some c -> skipn i s = c :: skipn (S i) s.
Proof.
  intros A. induction s as [|a s IH]; intros [|i] c H; try discriminate.
  - simpl in H. injection H as ->. reflexivity.
  - simpl in H. simpl. now apply IH.
Qed.

Lemma skipn_nil_nth : forall (A : Type) (s : list A) (i : nat),
  nth_error s i = None -> skipn i s = [].
Proof.
  intros A s i H. apply skipn_all2. now apply nth_error_None.
Qed.

Section Literals.

Variable input : jsstring.

Lemma matcher_seq : forall r1 r2 x c,
  matcher input (Seq r1 r2) x c
  = matcher input r1 x (fun y => matcher input r2 y c).
Proof. reflexivity. Qed.

Lemma matcher_literal : forall (p : jsstring) (x : MatchState)
  (c : Continuation),
  matcher input (lit_units p) x c =
    if startsWith p (skipn (endIndex x) input)
    then c (advance x (length p)) else None.
Proof.
  assert (Hchar : forall ch x c,
    matcher input (Char ch) x c =
      if startsWith [ch] (skipn (endIndex x) input)
      then c (advance x 1) else None).
  { intros ch x c. cbn [matcher]. unfold step, advance.
    destruct (nth_error input (endIndex x)) as [ch'|] eqn:Hnth.
    - rewrite (skipn_cons_nth _ _ _ _ Hnth). cbn [startsWith].
      rewrite andb_true_r, Nat.add_1_r. reflexivity.
    - rewrite (skipn_nil_nth _ _ _ Hnth). reflexivity. }
  induction p as [|ch p IH]; intros x c.
  - cbn [lit_units matcher startsWith length]. unfold advance.
    rewrite Nat.add_0_r. now destruct x.
  - destruct p as [|ch2 p].
    + cbn [lit_units]. apply Hchar.
    + change (lit_units (ch :: ch2 :: p))
        with (Seq (Char ch) (lit_units (ch2 :: p))).
      rewrite matcher_seq, Hchar.
      destruct (nth_error input (endIndex x)) as [ch'|] eqn:Hnth.
      * rewrite (skipn_cons_nth _ _ _ _ Hnth).
        cbn [startsWith]. rewrite andb_true_r.
        destruct (N.eqb ch ch'); [|reflexivity].
        rewrite IH. unfold advance. cbn [endIndex captures length].
        rewrite Nat.add_1_r. cbn [andb].
        replace (endIndex x + S (S (length p)))
          with (S (endIndex x) + S (length p)) by lia.
        reflexivity.
      * rewrite (skipn_nil_nth _ _ _ Hnth). reflexivity.
Qed.

(** The search finds the least start index at which the pattern matches. *)
Lemma search_spec : forall r n i0 i y,
  search input r n i0 = Some (i, y) ->
  i0 <= i <= i0 + n /\
  matcher input r (mkState i []) Some = Some y /\
  forall j, i0 <= j < i -> matcher input r (mkState j []) Some = None.
Proof.
  intros r. induction n as [|n IH]; intros i0 i y H; simpl in H.
  - destruct (matcher input r (mkState i0 []) Some) as [y0|] eqn:Hm;
      [|discriminate].
    injection H as <- <-. repeat split; auto; lia.
  - destruct (matcher input r (mkState i0 []) Some) as [y0|] eqn:Hm.
    + injection H as <- <-. repeat split; auto; lia.
    + destruct (IH (S i0) i y H) as [Hrange [Hy Hleast]].
      repeat split; auto; try lia.
      intros j Hj. destruct (Nat.eq_dec j i0) as [->|Hne]; [assumption|].
      apply Hleast. lia.
Qed.

Lemma search_none : forall r n i0,
  search input r n i0 = None ->
  forall j, i0 <= j <= i0 + n -> matcher input r (mkState j []) Some = None.
Proof.
  intros r. induction n as [|n IH]; intros i0 H j Hj; simpl in H;
    destruct (matcher input r (mkState i0 []) Some) as [y0|] eqn:Hm;
    try discriminate.
  - replace j with i0 by lia. assumption.
  - destruct (Nat.eq_dec j i0) as [->|Hne]; [assumption|].
    apply (IH (S i0) H). lia.
Qed.

Lemma search_found : forall r n i0 j,
  i0 <= j <= i0 + n ->
  matcher input r (mkState j []) Some <> None ->
  search input r n i0 <> None.
Proof.
  intros r n i0 j Hj Hm Hnone. apply Hm.
  now apply (search_none r n i0 Hnone).
Qed.

Lemma step_handsOver : forall ok, handsOver input (step input ok).
Proof.
  intros ok x c z Hx. unfold step.
  destruct (nth_error input (endIndex x)) as [ch|] eqn:Hnth; [|discriminate].
  destruct (ok ch); [|discriminate].
  assert (Hlt : endIndex x < length input)
    by (apply nth_error_Some; congruence).
  intros H. eexists. repeat split; [| |exact H]; simpl; lia.
Qed.

Lemma repeatMatcher_handsOver : forall m names,
  handsOver input m ->
  forall fuel min max, handsOver input (repeatMatcher m names fuel min max).
Proof.
  intros m names Hm. induction fuel as [|fuel IH]; intros min max x c z Hx H.
  - simpl in H. destruct max as [[|n]|]; try discriminate.
    exists x. auto.
  - rewrite repeatMatcher_step in H.
    assert (Hnext : forall w,
      m (mkState (endIndex x) (clear names (captures x)))
        (nextIteration m names fuel min max x c) = Some w ->
      exists y, endIndex x <= endIndex y /\ endIndex y <= length input /\
                c y = Some w).
    { intros w Hw.
      destruct (Hm (mkState (endIndex x) (clear names (captures x))) _ _
                  Hx Hw) as [y [Hy1 [Hy2 Hd]]].
      unfold nextIteration in Hd.
      destruct ((min =? 0) && (endIndex y =? endIndex x)); [discriminate|].
      destruct (IH _ _ _ _ _ Hy2 Hd) as [y' [Hy'1 [Hy'2 Hc]]].
      exists y'. simpl in Hy1. repeat split; auto; lia. }
    destruct max as [[|n]|]; cbv zeta in H.
    + exists x. auto.
    + destruct (min =? 0); [|now apply Hnext].
      destruct (m _ _) as [w|] eqn:Hw.
      * injection H as <-. now apply Hnext.
      * exists x. auto.
    + destruct (min =? 0); [|now apply Hnext].
      destruct (m _ _) as [w|] eqn:Hw.
      * injection H as <-. now apply Hnext.
      * exists x. auto.
Qed.

Lemma matcher_handsOver : forall r, handsOver input (matcher input r).
Proof.
  induction r as [|ch| |negated ranges|r1 IH1 r2 IH2|r1 IH1 r2 IH2
                 |min max r IH|name r IH| |l];
    intros x c z Hx H; cbn [matcher] in H.
  - exists x. auto.
  - exact (step_handsOver _ x c z Hx H).
  - exact (step_handsOver _ x c z Hx H).
  - exact (step_handsOver _ x c z Hx H).
  - destruct (IH1 _ _ _ Hx H) as [y [Hy1 [Hy2 H2]]].
    destruct (IH2 _ _ _ Hy2 H2) as [y' [Hy'1 [Hy'2 Hc]]].
    exists y'. repeat split; auto; lia.
  - destruct (matcher input r1 x c) as [w|] eqn:Hw.
    + injection H as <-. now apply (IH1 x c w).
    + now apply (IH2 x c z).
  - exact (repeatMatcher_handsOver _ _ IH _ _ _ x c z Hx H).
  - destruct (IH _ _ _ Hx H) as [y [Hy1 [Hy2 Hc]]].
    eexists. repeat split; [| |exact Hc]; simpl; lia.
  - destruct (endIndex x =? length input); [|discriminate]. exists x. auto.
  - destruct (_ && _); [discriminate|]. exists x. auto.
Qed.

End Literals.

(** [includes] says that the text starts at some position. *)
Lemma indexOf_startsWith : forall (p s : jsstring) (i : nat),
  indexOf p s = Some i ->
  i <= length s /\ startsWith p (skipn i s) = true.
Proof.
  intros p. induction s as [|c s IH]; intros i H; simpl in H.
  - destruct (startsWith p []) eqn:Hp; [|discriminate].
    injection H as <-. auto.
  - destruct (startsWith p (c :: s)) eqn:Hp.
    + injection H as <-. split; [simpl; lia | assumption].
    + destruct (indexOf p s) as [k|] eqn:Hk; [|discriminate].
      injection H as <-. destruct (IH k eq_refl) as [Hle Hstart].
      split; [simpl; lia | assumption].
Qed.

Lemma indexOf_none : forall (p s : jsstring) (i : nat),
  indexOf p s = None -> startsWith p (skipn i s) = false.
Proof.
  intros p. induction s as [|c s IH]; intros i H; simpl in H.
  - destruct (startsWith p []) eqn:Hp; [discriminate|].
    now destruct i.
  - destruct (startsWith p (c :: s)) eqn:Hp; [discriminate|].
    destruct (indexOf p s) as [k|] eqn:Hk; [discriminate|].
    destruct i as [|i]; [assumption|]. simpl. now apply IH.
Qed.

Lemma test_true_iff : forall (r : regex) (s : jsstring),
  test r s = true <->
  exists i, i <= length s /\ matcher s r (mkState i []) Some <> None.
Proof.
  intros r s. unfold test, exec. split.
  - destruct (search s r (length s) 0) as [[i y]|] eqn:Hsearch;
      [|discriminate].
    intros _. destruct (search_spec s r _ _ _ _ Hsearch) as [Hi [Hy _]].
    exists i. split; [lia | congruence].
  - intros [i [Hi Hm]].
    destruct (search s r (length s) 0) as [[j y]|] eqn:Hsearch;
      [reflexivity|].
    exfalso. apply Hm. apply (search_none s r _ _ Hsearch). lia.
Qed.

(** A pattern without operators matches exactly the messages that include
    its text. *)
Lemma test_literal : forall (p s : jsstring),
  test (lit_units p) s = includes s p.
Proof.
  intros p s. unfold includes.
  destruct (indexOf p s) as [i|] eqn:Hi.
  - apply test_true_iff. destruct (indexOf_startsWith p s i Hi) as [Hle Hp].
    exists i. split; [assumption|].
    rewrite matcher_literal. simpl. rewrite Hp. discriminate.
  - destruct (test (lit_units p) s) eqn:Ht; [|reflexivity].
    apply test_true_iff in Ht as [i [_ Hm]]. exfalso. apply Hm.
    rewrite matcher_literal. simpl. now rewrite (indexOf_none p s i Hi).
Qed.

(** The matched text is the part of the input between the start index and
    the end of the match. *)
Lemma exec_matched : forall (r : regex) (s : jsstring) (m : MatchResult),
  exec r s = Some m ->
  index m + length (matched m) <= length s /\
  s = firstn (index m) s ++ matched m
      ++ skipn (index m + length (matched m)) s.
Proof.
  intros r s m. unfold exec.
  destruct (search s r (length s) 0) as [[i y]|] eqn:Hsearch; [|discriminate].
  intros H. injection H as <-. cbn [index matched].
  destruct (search_spec s r _ _ _ _ Hsearch) as [Hi [Hy _]].
  assert (Hile : i <= length s) by lia.
  destruct (matcher_handsOver s r (mkState i []) Some y Hile Hy)
    as [y' [Hstart [Hend Hsome]]].
  injection Hsome as ->. cbn [endIndex] in Hstart.
  unfold substring.
  assert (Hlen : length (firstn (endIndex y - i) (skipn i s))
                 = endIndex y - i).
  { rewrite length_firstn, length_skipn. lia. }
  rewrite Hlen. split; [lia|].
  replace (i + (endIndex y - i)) with (endIndex y - i + i) by lia.
  rewrite <- (skipn_skipn (endIndex y - i) i s).
  rewrite firstn_skipn. now rewrite firstn_skipn.
Qed.

Section Quantifiers.

Variable input : jsstring.

(** A quantifier that may match nothing succeeds wherever what follows it
    succeeds. *)
Lemma matcher_optional_total : forall max r x c,
  c x <> None ->
  matcher input (Repeat 0 max r) x c <> None.
Proof.
  intros max r x c Hc. cbn [matcher]. unfold repeatFuel.
  rewrite repeatMatcher_step.
  destruct max as [[|n]|]; cbv zeta; [assumption| |];
    cbn [Nat.eqb]; destruct (matcher input r _ _); [discriminate|assumption
                                                    |discriminate|assumption].
Qed.

(** A pattern that begins with a literal text. *)
Lemma matcher_literal_first : forall p r x c,
  matcher input (Seq (lit_units p) r) x c =
    if startsWith p (skipn (endIndex x) input)
    then matcher input r (advance x (length p)) c else None.
Proof. intros p r x c. rewrite matcher_seq. apply matcher_literal. Qed.

End Quantifiers.

(** A pattern each of whose two alternatives begins with a literal text
    matches no message that includes neither text. *)
Lemma test_two_literal_alternatives : forall p1 r1 p2 r2 s,
  includes s p1 = false ->
  includes s p2 = false ->
  test (Alt (Seq (lit_units p1) r1) (Seq (lit_units p2) r2)) s = false.
Proof.
  intros p1 r1 p2 r2 s H1 H2.
  destruct (test _ s) eqn:Ht; [|reflexivity].
  apply test_true_iff in Ht as [i [_ Hm]]. exfalso. apply Hm.
  unfold includes in H1, H2.
  destruct (indexOf p1 s) eqn:Hi1; [discriminate|].
  destruct (indexOf p2 s) eqn:Hi2; [discriminate|].
  cbn [matcher]. fold (matcher s).
  change (matcher s (lit_units p1) (mkState i [])
            (fun y => matcher s r1 y Some))
    with (matcher s (Seq (lit_units p1) r1) (mkState i []) Some).
  rewrite matcher_literal_first. cbn [endIndex].
  rewrite (indexOf_none p1 s i Hi1).
  change (matcher s (lit_units p2) (mkState i [])
            (fun y => matcher s r2 y Some))
    with (matcher s (Seq (lit_units p2) r2) (mkState i []) Some).
  rewrite matcher_literal_first. cbn [endIndex].
  now rewrite (indexOf_none p2 s i Hi2).
Qed.

(** A pattern whose first alternative is a literal text followed by [.*]
    matches every message that includes the text. *)
Lemma test_literal_then_any : forall p r2 s,
  includes s p = true ->
  test (Alt (Seq (lit_units p) any) r2) s = true.
Proof.
  intros p r2 s Hp. unfold includes in Hp.
  destruct (indexOf p s) as [i|] eqn:Hi; [|discriminate].
  destruct (indexOf_startsWith p s i Hi) as [Hle Hstart].
  apply test_true_iff. exists i. split; [assumption|].
  cbn [matcher]. fold (matcher s).
  change (matcher s (lit_units p) (mkState i [])
            (fun y => matcher s any y Some))
    with (matcher s (Seq (lit_units p) any) (mkState i []) Some).
  rewrite matcher_literal_first. cbn [endIndex]. rewrite Hstart.
  destruct (matcher s any _ Some) eqn:Hany; [discriminate|].
  exfalso. revert Hany. apply matcher_optional_total. discriminate.
Qed.

(* ================================================================== *)
(** ** Rules with and without named groups *)

Lemma applyKnownError_no_groups : forall R errorMessage error,
  ngroups (errorRegex R) = 0 ->
  applyKnownError R errorMessage error
  = mkOutcome (Return (verbatim R (Some error))) error.
Proof.
  intros R errorMessage error Hzero. unfold applyKnownError, verbatim.
  destruct (exec (errorRegex R) errorMessage) as [m|] eqn:Hexec.
  - destruct (exec_shape _ _ _ Hexec) as [Hn _]. rewrite Hn, Hzero.
    cbn [Nat.ltb Nat.leb]. cbn [rwMessage rwResolution underlyingError].
    destruct (classificationOf R); reflexivity.
  - cbn [rwMessage rwResolution underlyingError].
    destruct (classificationOf R); reflexivity.
Qed.

Lemma knownErrors_groupsReferenced :
  forall (env : Collaborators) (R : KnownError),
    In R (getKnownErrors env) -> groupsReferenced R = true.
Proof.
  intros env R Hin.
  assert (Hall : forallb groupsReferenced (getKnownErrors env) = true)
    by (vm_compute; reflexivity).
  rewrite forallb_forall in Hall. exact (Hall R Hin).
Qed.

Lemma knownErrors_fault : forall (env : Collaborators) (R : KnownError),
  In R (getKnownErrors env) -> faultOnlyForEmptyZip R = true.
Proof.
  intros env R Hin.
  assert (Hall : forallb faultOnlyForEmptyZip (getKnownErrors env) = true)
    by (vm_compute; reflexivity).
  rewrite forallb_forall in Hall. exact (Hall R Hin).
Qed.

(** A rule whose pattern is a plain text is reached by every message that
    includes the text: the result is then built from that rule or from one
    that stands before it in the table, never from the fallback. *)
Theorem literal_rule_bounds_classification :
  forall (env : Collaborators) (error : JsError)
         (deploymentType : option jsstring) (k : nat) (R : KnownError)
         (p : jsstring),
    reachesTable env error ->
    nth_error (getKnownErrors env) k = Some R ->
    errorRegex R = lit_units p ->
    includes (stripANSI env (message error)) p = true ->
    exists (j : nat) (R' : KnownError) (r : JsError),
      j <= k /\
      nth_error (getKnownErrors env) j = Some R' /\
      completion (getAmplifyError env error deploymentType) = Return r /\
      name r = errorName R' /\
      classification r = Some (classificationOf R').
Proof.
  intros env error dt k R p Hreach Hk Hlit Hp.
  set (errorMessage := stripANSI env (message error)) in *.
  assert (Htest : test (errorRegex R) errorMessage = true)
    by (rewrite Hlit, test_literal; exact Hp).
  destruct (find_not_after KnownError
              (fun knownError => test (errorRegex knownError) errorMessage)
              (getKnownErrors env) k R Hk Htest)
    as [j [R' [Hj [HR' Hfind]]]].
  destruct (applyKnownError_kind R' errorMessage error)
    as [r [Hr [Hname Hclass]]].
  exists j, R', r. repeat split; auto.
  rewrite (getAmplifyError_table env error dt Hreach).
  unfold scanTable. fold errorMessage. now rewrite Hfind.
Qed.

Lemma literal_rule_bounds_classification_witness :
  reachesTable Sample.collaborators FirstMatch.error /\
  includes (stripANSI Sample.collaborators (message FirstMatch.error))
    (str "amplify/backend") = true /\
  exists (j : nat) (R' : KnownError) (r : JsError),
    j <= 34 /\
    nth_error (getKnownErrors Sample.collaborators) j = Some R' /\
    completion (getAmplifyError Sample.collaborators FirstMatch.error None)
    = Return r /\
    name r = errorName R' /\
    classification r = Some (classificationOf R').
Proof.
  assert (Hreach : reachesTable Sample.collaborators FirstMatch.error)
    by (repeat split; reflexivity).
  assert (Hp : includes
                 (stripANSI Sample.collaborators (message FirstMatch.error))
                 (str "amplify/backend") = true)
    by (vm_compute; reflexivity).
  split; [exact Hreach|]. split; [exact Hp|].
  refine (literal_rule_bounds_classification Sample.collaborators
            FirstMatch.error None 34 _ (str "amplify/backend") Hreach _ _ Hp);
    reflexivity.
Defined.

(* ================================================================== *)
(** ** The rules for credentials and permissions *)

Lemma applyKnownError_unnamed_groups : forall R errorMessage error,
  test (errorRegex R) errorMessage = true ->
  groupNames (errorRegex R) = [] ->
  0 < ngroups (errorRegex R) ->
  exists m,
    exec (errorRegex R) errorMessage = Some m /\
    applyKnownError R errorMessage error
    = mkOutcome (Return (verbatim R (Some (setMessage error (matched m)))))
        (setMessage error (matched m)).
Proof.
  intros R errorMessage error Htest Hnames Hcount.
  unfold test in Htest. unfold applyKnownError, verbatim.
  destruct (exec (errorRegex R) errorMessage) as [m|] eqn:Hexec;
    [|discriminate].
  exists m. split; [reflexivity|].
  destruct (exec_shape _ _ _ Hexec) as [Hn [Hnone _]].
  rewrite (Hnone Hnames).
  assert (Hlen : (1 <? S (ncaptures m)) = true)
    by (apply Nat.ltb_lt; lia).
  rewrite Hlen. cbn [rwMessage rwResolution underlyingError].
  destruct (classificationOf R); reflexivity.
Qed.

(** A message that reaches the table and includes [Access Denied] is
    reported as [AccessDeniedError], with the caller's error untouched for
    cause, unless it includes one of the texts of the two rules for
    credentials that stand before the rule. *)
Theorem getAmplifyError_access_denied :
  forall (env : Collaborators) (error : JsError)
         (deploymentType : option jsstring),
    reachesTable env error ->
    includes (stripANSI env (message error)) (str "Access Denied") = true ->
    includes (stripANSI env (message error)) (str "ExpiredToken: ") = false ->
    includes (stripANSI env (message error))
      (str "The security token included in the request is ") = false ->
    includes (stripANSI env (message error))
      (str "The request signature we calculated does not match the signature you provided")
    = false ->
    getAmplifyError env error deploymentType =
      mkOutcome
        (Return
           (mkError (str "AccessDeniedError")
              (str "The deployment role does not have sufficient permissions to perform this deployment.")
              (Some ERROR)
              (Some (str "Ensure your deployment role has the AmplifyBackendDeployFullAccess role along with any additional permissions required to deploy your backend definition."))
              (Some error) notToolkit))
        error.
Proof.
  intros env error dt Hreach Hdenied Hexpired Htoken Hsignature.
  set (errorMessage := stripANSI env (message error)) in *.
  assert (Hrules : exists R0 r1 r2 R1 R2,
    nth_error (getKnownErrors env) 0 = Some R0 /\
    nth_error (getKnownErrors env) 1 = Some R1 /\
    nth_error (getKnownErrors env) 2 = Some R2 /\
    errorRegex R0
    = Alt (Seq (lit_units (str "ExpiredToken: ")) r1)
          (Seq (lit_units
                  (str "The security token included in the request is ")) r2)
    /\
    errorRegex R1
    = lit_units
        (str "The request signature we calculated does not match the signature you provided")
    /\
    errorRegex R2 = lit_units (str "Access Denied") /\
    ngroups (errorRegex R2) = 0 /\
    forall c,
      verbatim R2 c
      = mkError (str "AccessDeniedError")
          (str "The deployment role does not have sufficient permissions to perform this deployment.")
          (Some ERROR)
          (Some (str "Ensure your deployment role has the AmplifyBackendDeployFullAccess role along with any additional permissions required to deploy your backend definition."))
          c notToolkit).
  { do 5 eexists. split; [reflexivity|]. split; [reflexivity|].
    split; [reflexivity|]. repeat split; reflexivity. }
  destruct Hrules
    as [R0 [r1 [r2 [R1 [R2 [H0 [H1 [H2 [Hre0 [Hre1 [Hre2 [Hzero Hverbatim
       ]]]]]]]]]]]].
  assert (Hfind :
    find (fun knownError => test (errorRegex knownError) errorMessage)
      (getKnownErrors env) = Some R2).
  { apply (find_least KnownError _ _ 2 R2 H2).
    - rewrite Hre2, test_literal. exact Hdenied.
    - intros [|[|k]] y Hk Hy; [| |lia].
      + rewrite H0 in Hy. injection Hy as <-. rewrite Hre0.
        now apply test_two_literal_alternatives.
      + rewrite H1 in Hy. injection Hy as <-.
        rewrite Hre1, test_literal. exact Hsignature. }
  rewrite (getAmplifyError_table env error dt Hreach).
  unfold scanTable. fold errorMessage. rewrite Hfind.
  now rewrite (applyKnownError_no_groups R2 errorMessage error Hzero),
    Hverbatim.
Qed.

Lemma getAmplifyError_access_denied_witness :
  reachesTable Sample.collaborators Ansi.interrupted /\
  includes (message Ansi.interrupted) (str "Access Denied") = false /\
  kindOf (getAmplifyError Sample.collaborators Ansi.interrupted None)
  = Some (str "AccessDeniedError") /\
  cause_of_return
    (completion (getAmplifyError Sample.collaborators Ansi.interrupted None))
  = Some (Some Ansi.interrupted).
Proof.
  assert (Hreach : reachesTable Sample.collaborators Ansi.interrupted)
    by (repeat split; reflexivity).
  split; [exact Hreach|]. split; [reflexivity|].
  rewrite (getAmplifyError_access_denied Sample.collaborators
             Ansi.interrupted None Hreach);
    [split; reflexivity | | | |]; vm_compute; reflexivity.
Defined.

(* ================================================================== *)
(** ** The caller's error after a call *)

(** What a call can do to the caller's error: nothing, or replace its
    message by a contiguous part of the message without its ANSI codes; no
    other field changes. *)
Theorem caller_message_is_part_of_stripped_message :
  forall (env : Collaborators) (error : JsError)
         (deploymentType : option jsstring),
    errorAfter (getAmplifyError env error deploymentType) = error \/
    exists before after : jsstring,
      stripANSI env (message error)
      = before
        ++ message (errorAfter (getAmplifyError env error deploymentType))
        ++ after /\
      errorAfter (getAmplifyError env error deploymentType)
      = setMessage error
          (message (errorAfter (getAmplifyError env error deploymentType))).
Proof.
  intros env error dt. unfold getAmplifyError.
  destruct (fromStderr env (message error)); [now left|].
  destruct (isAmplifyError error); [now left|].
  destruct (getCDKError error) as [[e|]|e]; [now left| |now left].
  destruct (includes (message error) _); [now left|].
  destruct (includes (message error) _); [now left|].
  destruct (find _ _) as [R|]; [|now left].
  destruct (applyKnownError_frame R (stripANSI env (message error)) error)
    as [Hsame | [m [Hexec [_ [_ [Hafter _]]]]]]; [now left|].
  right. destruct (exec_matched _ _ _ Hexec) as [_ Hsplit].
  exists (firstn (index m) (stripANSI env (message error))),
    (skipn (index m + length (matched m)) (stripANSI env (message error))).
  rewrite Hafter. cbn [setMessage message]. split; [exact Hsplit|].
  reflexivity.
Qed.

(* ================================================================== *)
(** ** Severity and resolution *)

Lemma applyKnownError_report_fields : forall R errorMessage error,
  exists r res,
    completion (applyKnownError R errorMessage error) = Return r /\
    name r = errorName R /\
    classification r = Some (classificationOf R) /\
    resolution r = Some res.
Proof.
  intros R errorMessage error. unfold applyKnownError.
  destruct (exec _ _) as [m|]; [destruct (1 <? _); [destruct (groups m)|]|];
    simpl; destruct (classificationOf R);
    do 2 eexists; repeat split; reflexivity.
Qed.

(** For an input that is not structured and carries no serialized error,
    the result is a user error, except for three faults: the one for a
    context provider, the one for an empty archive and the fallback.  Only
    the fault for a context provider and the fallback may lack a
    resolution. *)
Theorem getAmplifyError_severity_and_resolution :
  forall (env : Collaborators) (error r : JsError)
         (deploymentType : option jsstring),
    fromStderr env (message error) = None ->
    isAmplifyError error = false ->
    completion (getAmplifyError env error deploymentType) = Return r ->
    (classification r = Some ERROR \/
     classification r = Some FAULT /\
     (name r = str "CDKContextProviderFault" \/
      name r = str "LambdaEmptyZipFault" \/
      r = fromError error))
    /\ (resolution r = None ->
        name r = str "CDKContextProviderFault" \/ r = fromError error).
Proof.
  intros env error r dt Hstderr Hamplify.
  unfold getAmplifyError. rewrite Hstderr, Hamplify.
  unfold getCDKError.
  destruct (isAuthenticationError (toolkit error)).
  { cbn [completion]. intros H. injection H as <-.
    split; [now left | discriminate]. }
  destruct (isAssemblyError (toolkit error)).
  { cbn [completion]. intros H. injection H as <-.
    split; [now left | discriminate]. }
  destruct (isContextProviderError (toolkit error)).
  { cbn [completion]. intros H. injection H as <-.
    split; [right; split; [reflexivity | now left] | now left]. }
  destruct (existsb _ nativeErrorNames); [discriminate|].
  assert (Hrest : forall o : Outcome,
    o = (if includes (message error)
              (str "does not support module.register()")
         then mkOutcome
                (Return
                   (AmplifyUserError (str "NodeVersionNotSupportedError")
                      (str "Unable to deploy due to unsupported node version")
                      (Some (nodeVersionResolution dt)) (Some error)))
                error
         else if includes (message error) (str "Failed to bundle asset")
         then mkOutcome
                (Return
                   (AmplifyUserError (str "CDKAssetBundleError")
                      (str "CDK failed to bundle your function code")
                      (Some (str "Check the error messages above for mode details"))
                      None))
                error
         else scanTable env error) ->
    completion o = Return r ->
    (classification r = Some ERROR \/
     classification r = Some FAULT /\
     (name r = str "CDKContextProviderFault" \/
      name r = str "LambdaEmptyZipFault" \/
      r = fromError error))
    /\ (resolution r = None ->
        name r = str "CDKContextProviderFault" \/ r = fromError error)).
  { intros o ->.
    destruct (includes (message error) _).
    { cbn [completion]. intros H. injection H as <-.
      split; [now left | discriminate]. }
    destruct (includes (message error) _).
    { cbn [completion]. intros H. injection H as <-.
      split; [now left | discriminate]. }
    unfold scanTable.
    destruct (find _ _) as [R|] eqn:Hfind.
    - apply find_some in Hfind as [Hin _].
      destruct (applyKnownError_report_fields R
                  (stripANSI env (message error)) error)
        as [r' [res [Hr' [Hname [Hclass Hres]]]]].
      rewrite Hr'. intros H. injection H as <-.
      split; [|rewrite Hres; discriminate].
      pose proof (knownErrors_fault env R Hin) as Hfault.
      unfold faultOnlyForEmptyZip in Hfault.
      rewrite Hclass. destruct (classificationOf R); [now left|].
      right. split; [reflexivity|]. right. left.
      rewrite Hname. now apply jsstring_eqb_eq.
    - cbn [completion]. intros H. injection H as <-.
      split; [right; split; [reflexivity | now right; right] | now right]. }
  destruct (isToolkitError (toolkit error));
    intros H; refine (Hrest _ _ H); reflexivity.
Qed.

Lemma getAmplifyError_severity_and_resolution_witness :
  fromStderr Sample.collaborators (message Inputs.contextProviderError)
  = None /\
  isAmplifyError Inputs.contextProviderError = false /\
  exists r : JsError,
    completion
      (getAmplifyError Sample.collaborators Inputs.contextProviderError None)
    = Return r /\
    (classification r = Some ERROR \/
     classification r = Some FAULT /\
     (name r = str "CDKContextProviderFault" \/
      name r = str "LambdaEmptyZipFault" \/
      r = fromError Inputs.contextProviderError)).
Proof.
  split; [reflexivity|]. split; [reflexivity|].
  eexists. split; [reflexivity|].
  exact (proj1 (getAmplifyError_severity_and_resolution Sample.collaborators
                  Inputs.contextProviderError _ None
                  eq_refl eq_refl eq_refl)).
Defined.

(* ================================================================== *)
(** ** Line terminators at the end of a message *)

Section TrailingEol.

Variable s : jsstring.

Lemma eol_run_then_end : forall fuel i,
  i <= length s ->
  length s - i < fuel ->
  repeatMatcher (matcher s (Class false [(13, 13); (10, 10)]%N)) [] fuel 0
    None (mkState i []) (fun y => matcher s AssertEnd y Some)
  = if forallb isEol (skipn i s) then Some (mkState (length s) []) else None.
Proof.
  assert (Hclass : forall x c,
    matcher s (Class false [(13, 13); (10, 10)]%N) x c
    = step s isEol x c) by reflexivity.
  induction fuel as [|fuel IH]; intros i Hi Hfuel; [lia|].
  rewrite repeatMatcher_step. cbv zeta.
  change (0 =? 0) with true. cbv iota.
  cbn [endIndex captures].
  change (clear [] []) with (@nil (jsstring * jsstring)).
  rewrite Hclass. unfold step. cbn [endIndex captures].
  change (matcher s AssertEnd (mkState i []) Some)
    with (if i =? length s then Some (mkState i []) else None).
  destruct (nth_error s i) as [ch|] eqn:Hnth.
  - assert (Hlt : i < length s) by (apply nth_error_Some; congruence).
    rewrite (skipn_cons_nth _ _ _ _ Hnth). cbn [forallb].
    assert (Hend : (i =? length s) = false) by (apply Nat.eqb_neq; lia).
    rewrite Hend.
    destruct (isEol ch); [|reflexivity].
    unfold nextIteration. change (0 =? 0) with true.
    cbn [andb endIndex option_map]. change (Nat.pred 0) with 0.
    assert (Hne : (S i =? i) = false) by (apply Nat.eqb_neq; lia).
    rewrite Hne. rewrite IH by lia.
    destruct (forallb isEol (skipn (S i) s)); reflexivity.
  - assert (Hge : length s <= i) by (now apply nth_error_None).
    rewrite (skipn_nil_nth _ _ _ Hnth). cbn [forallb].
    assert (Hend : (i =? length s) = true) by (apply Nat.eqb_eq; lia).
    rewrite Hend. f_equal. f_equal. lia.
Qed.

Lemma trailingEol_at : forall i,
  i <= length s ->
  matcher s trailingEol (mkState i []) Some
  = if forallb isEol (skipn i s) then Some (mkState (length s) []) else None.
Proof.
  intros i Hi. unfold trailingEol, multiLineEolRegex, Star.
  rewrite matcher_seq. cbn [matcher groupNames].
  apply eol_run_then_end; [assumption|]. unfold repeatFuel. simpl. lia.
Qed.

Lemma dropTrailingEol_firstn : forall (t : jsstring) (i : nat),
  i <= length t ->
  forallb isEol (skipn i t) = true ->
  (forall j, j < i -> forallb isEol (skipn j t) = false) ->
  dropTrailingEol t = firstn i t.
Proof.
  induction t as [|c t IH]; intros i Hi Hall Hleast.
  - now destruct i.
  - destruct i as [|i].
    + simpl in Hall. simpl. now rewrite Hall.
    + pose proof (Hleast 0 (Nat.lt_0_succ i)) as H0. simpl in H0.
      cbn [dropTrailingEol]. cbn [forallb]. rewrite H0.
      cbn [firstn]. f_equal. apply IH.
      * simpl in Hi. lia.
      * exact Hall.
      * intros j Hj. apply (Hleast (S j)). lia.
Qed.

(** Removing the first match of the pattern for trailing line terminators
    removes the carriage returns and line feeds at the end of the text. *)
Lemma removeFirst_trailingEol : removeFirst trailingEol s = dropTrailingEol s.
Proof.
  unfold removeFirst, exec.
  destruct (search s trailingEol (length s) 0) as [[i y]|] eqn:Hsearch.
  - destruct (search_spec s trailingEol _ _ _ _ Hsearch)
      as [Hi [Hy Hleast]].
    assert (Hile : i <= length s) by lia.
    rewrite (trailingEol_at i Hile) in Hy.
    destruct (forallb isEol (skipn i s)) eqn:Hall; [|discriminate].
    injection Hy as <-. cbn [index matched endIndex].
    unfold substring.
    rewrite length_firstn, length_skipn, Nat.min_id.
    replace (i + (length s - i)) with (length s) by lia.
    rewrite skipn_all, app_nil_r. symmetry.
    apply dropTrailingEol_firstn; [assumption | assumption |].
    intros j Hj.
    assert (Hjle : j <= length s) by lia.
    pose proof (Hleast j (conj (Nat.le_0_l j) Hj)) as Hnone.
    rewrite (trailingEol_at j Hjle) in Hnone.
    now destruct (forallb isEol (skipn j s)).
  - exfalso.
    apply (search_found s trailingEol (length s) 0 (length s));
      [lia | | exact Hsearch].
    rewrite trailingEol_at by lia. now rewrite skipn_all.
Qed.

End TrailingEol.

Lemma dropTrailingEol_nil : forall s : jsstring,
  dropTrailingEol s = [] -> forallb isEol s = true.
Proof.
  intros [|c s]; [reflexivity|]. cbn [dropTrailingEol].
  destruct (forallb isEol (c :: s)); [reflexivity | discriminate].
Qed.

Lemma dropTrailingEol_end : forall s : jsstring,
  endsInEol (dropTrailingEol s) = false.
Proof.
  induction s as [|c s IH]; [reflexivity|].
  cbn [dropTrailingEol].
  destruct (forallb isEol (c :: s)) eqn:Hall; [reflexivity|].
  destruct (dropTrailingEol s) as [|d t] eqn:Hdrop.
  - apply dropTrailingEol_nil in Hdrop. cbn [forallb] in Hall.
    rewrite Hdrop, andb_true_r in Hall. simpl. exact Hall.
  - exact IH.
Qed.

Lemma dropTrailingEol_split : forall s : jsstring,
  exists eols, s = dropTrailingEol s ++ eols /\ forallb isEol eols = true.
Proof.
  induction s as [|c s [eols [Hs Heols]]]; [now exists []|].
  cbn [dropTrailingEol].
  destruct (forallb isEol (c :: s)) eqn:Hall.
  - exists (c :: s). auto.
  - exists eols. split; [|assumption]. simpl. now rewrite <- Hs.
Qed.

(** The message built from a rule with a named group never ends in a
    carriage return or a line feed. *)
Theorem getAmplifyError_message_without_trailing_eol :
  forall (env : Collaborators) (error : JsError)
         (deploymentType : option jsstring) (R : KnownError),
    reachesTable env error ->
    find (fun knownError =>
            test (errorRegex knownError) (stripANSI env (message error)))
      (getKnownErrors env) = Some R ->
    groupNames (errorRegex R) <> [] ->
    exists r : JsError,
      completion (getAmplifyError env error deploymentType) = Return r /\
      endsInEol (message r) = false.
Proof.
  intros env error dt R Hreach Hfind Hnames.
  rewrite (getAmplifyError_table env error dt Hreach).
  unfold scanTable. rewrite Hfind.
  apply find_some in Hfind as [_ Htest].
  unfold test in Htest. unfold applyKnownError.
  destruct (exec (errorRegex R) (stripANSI env (message error)))
    as [m|] eqn:Hexec; [|discriminate].
  destruct (exec_shape _ _ _ Hexec) as [Hcount [Hnone Hsome]].
  pose proof (groupNames_counted (errorRegex R)) as Hle.
  assert (Hlen : (1 <? S (ncaptures m)) = true).
  { apply Nat.ltb_lt. rewrite Hcount.
    destruct (groupNames (errorRegex R)); [now contradiction Hnames|].
    simpl in Hle. lia. }
  rewrite Hlen.
  destruct (groups m) as [entries|] eqn:Hgroups.
  - cbn [rwMessage rwResolution underlyingError completion].
    rewrite removeFirst_trailingEol.
    destruct (classificationOf R); eexists; (split; [reflexivity|]);
      apply dropTrailingEol_end.
  - exfalso. unfold exec in Hexec.
    destruct (search _ (errorRegex R) _ 0) as [[i y]|]; [|discriminate].
    injection Hexec as <-. simpl in Hgroups.
    destruct (groupNames (errorRegex R)); [now contradiction Hnames|].
    discriminate.
Qed.

Lemma getAmplifyError_message_without_trailing_eol_witness :
  reachesTable Sample.collaborators Build.error /\
  exists r : JsError,
    completion (getAmplifyError Sample.collaborators Build.error None)
    = Return r /\
    endsInEol (message r) = false.
Proof.
  assert (Hreach : reachesTable Sample.collaborators Build.error)
    by (repeat split; reflexivity).
  split; [exact Hreach|].
  refine (getAmplifyError_message_without_trailing_eol Sample.collaborators
            Build.error None _ Hreach _ _).
  - vm_compute. reflexivity.
  - intros H. discriminate H.
Defined.

(* ================================================================== *)
(** ** The formatter *)

Lemma replace_absent : forall s p v : jsstring,
  includes s p = false -> replace s p v = s.
Proof.
  intros s p v H. unfold includes in H. unfold replace.
  now destruct (indexOf p s).
Qed.

(** The message template is rewritten by the captured values alone. *)
Lemma substituteGroup_message :
  forall (entries : list (jsstring * option jsstring)) (st : Rewriting),
    rwMessage (fold_left substituteGroup entries st)
    = fold_left
        (fun m entry =>
           replace m (str "{" ++ fst entry ++ str "}")
             (toStringValue (snd entry)))
        entries (rwMessage st).
Proof.
  induction entries as [|entry entries IH]; intros st; [reflexivity|].
  cbn [fold_left]. rewrite IH. f_equal. unfold substituteGroup.
  destruct (includes (rwMessage st) (str "{" ++ fst entry ++ str "}"))
    eqn:Hm; cbn [orb].
  - reflexivity.
  - destruct (includes (rwResolution st) _); cbn [rwMessage];
      [reflexivity | symmetry; now apply replace_absent].
Qed.

Lemma knownErrors_core : forall env env' : Collaborators,
  map ruleCore (getKnownErrors env) = map ruleCore (getKnownErrors env').
Proof. intros env env'. reflexivity. Qed.

Lemma find_core : forall (p : regex -> bool) (l l' : list KnownError),
  map ruleCore l = map ruleCore l' ->
  match find (fun R => p (errorRegex R)) l,
        find (fun R => p (errorRegex R)) l' with
  | Some R, Some R' => ruleCore R = ruleCore R'
  | None, None => True
  | _, _ => False
  end.
Proof.
  intros p. induction l as [|R l IH]; intros [|R' l'] H; try discriminate.
  - exact I.
  - cbn [map] in H.
    pose proof (f_equal (hd (ruleCore R)) H) as Hcore.
    pose proof (f_equal (@tl _) H) as Hrest.
    cbn [hd tl] in Hcore, Hrest. cbn [find].
    assert (Hregex : errorRegex R = errorRegex R')
      by (unfold ruleCore in Hcore; congruence).
    rewrite Hregex. destruct (p (errorRegex R')); [assumption|].
    now apply IH.
Qed.

Lemma applyKnownError_core : forall R R' errorMessage error,
  ruleCore R = ruleCore R' ->
  groupsReferenced R = true ->
  groupsReferenced R' = true ->
  sameButResolution (completion (applyKnownError R errorMessage error))
                    (completion (applyKnownError R' errorMessage error)) /\
  errorAfter (applyKnownError R errorMessage error)
  = errorAfter (applyKnownError R' errorMessage error).
Proof.
  intros R R' errorMessage error Hcore Href Href'.
  unfold ruleCore in Hcore. injection Hcore as Hregex Hmsg Hname Hclass.
  unfold applyKnownError. rewrite <- Hregex, <- Hmsg, <- Hname, <- Hclass.
  destruct (exec (errorRegex R) errorMessage) as [m|] eqn:Hexec.
  - destruct (exec_shape _ _ _ Hexec) as [_ [_ Hsome]].
    destruct (1 <? S (ncaptures m)).
    + destruct (groups m) as [entries|] eqn:Hgroups.
      * destruct (Hsome entries eq_refl) as [Hkeys Hnonempty].
        destruct (groupNames (errorRegex R)) as [|n ns] eqn:Hgn;
          [now contradiction Hnonempty|].
        assert (Hdrop : forall res,
          (includes (humanReadableErrorMessage R) (str "{" ++ n ++ str "}")
           || includes res (str "{" ++ n ++ str "}")) = true ->
          underlyingError
            (fold_left substituteGroup entries
               (mkRewriting (humanReadableErrorMessage R) res (Some error)))
          = None).
        { intros res Hn.
          apply (substituteGroup_referenced_drops entries _ n);
            [rewrite Hkeys; simpl; auto | exact Hn]. }
        assert (Hn : (includes (humanReadableErrorMessage R)
                        (str "{" ++ n ++ str "}")
                      || includes (resolutionMessage R)
                           (str "{" ++ n ++ str "}")) = true).
        { unfold groupsReferenced in Href. rewrite Hgn in Href.
          cbn [forallb] in Href. now apply andb_true_iff in Href as [Hn _]. }
        assert (Hn' : (includes (humanReadableErrorMessage R)
                         (str "{" ++ n ++ str "}")
                       || includes (resolutionMessage R')
                            (str "{" ++ n ++ str "}")) = true).
        { unfold groupsReferenced in Href'.
          rewrite <- Hregex, Hgn, <- Hmsg in Href'.
          cbn [forallb] in Href'.
          now apply andb_true_iff in Href' as [Hn' _]. }
        cbn [rwMessage rwResolution underlyingError completion errorAfter].
        rewrite (Hdrop _ Hn), (Hdrop _ Hn'), !substituteGroup_message.
        cbn [rwMessage].
        split; [|reflexivity].
        destruct (classificationOf R); cbn; auto.
      * cbn [rwMessage rwResolution underlyingError completion errorAfter].
        split; [|reflexivity].
        destruct (classificationOf R); cbn; auto.
    + cbn [rwMessage rwResolution underlyingError completion errorAfter].
      split; [|reflexivity].
      destruct (classificationOf R); cbn; auto.
  - cbn [rwMessage rwResolution underlyingError completion errorAfter].
    split; [|reflexivity].
    destruct (classificationOf R); cbn; auto.
Qed.

(** The formatter handed to the constructor decides nothing but resolution
    texts: with another formatter the result has the same name, message,
    severity and cause, it is returned or thrown alike, and the caller's
    error is left in the same state. *)
Theorem formatter_changes_resolution_only :
  forall (env : Collaborators) (normalize : jsstring -> jsstring)
         (error : JsError) (deploymentType : option jsstring),
    sameButResolution
      (completion (getAmplifyError env error deploymentType))
      (completion
         (getAmplifyError (withFormatter env normalize) error deploymentType))
    /\ errorAfter (getAmplifyError env error deploymentType)
       = errorAfter
           (getAmplifyError (withFormatter env normalize) error
              deploymentType).
Proof.
  intros env normalize error dt.
  assert (Hrefl : forall c : Completion JsError, sameButResolution c c)
    by (intros [x|x]; cbn; auto).
  unfold getAmplifyError, withFormatter. cbn [fromStderr stripANSI].
  destruct (fromStderr env (message error)); [split; auto|].
  destruct (isAmplifyError error); [split; auto|].
  destruct (getCDKError error) as [[e|]|e]; [split; auto| |split; auto].
  destruct (includes (message error) _); [split; auto|].
  destruct (includes (message error) _); [split; auto|].
  set (env' := mkCollaborators (fromStderr env) (stripANSI env) normalize).
  set (errorMessage := stripANSI env (message error)).
  pose proof (find_core (fun r => test r errorMessage)
                (getKnownErrors env) (getKnownErrors env')
                (knownErrors_core env env')) as Hfind.
  cbv beta in Hfind.
  destruct (find _ (getKnownErrors env)) as [R|] eqn:HR;
    destruct (find _ (getKnownErrors env')) as [R'|] eqn:HR';
    try contradiction.
  - apply find_some in HR as [Hin _]. apply find_some in HR' as [Hin' _].
    apply applyKnownError_core; [assumption| |].
    + exact (knownErrors_groupsReferenced env R Hin).
    + exact (knownErrors_groupsReferenced env' R' Hin').
  - split; auto.
Qed.

(* ================================================================== *)
(** ** Errors of the deployment toolkit *)

(** [getCDKError] yields nothing exactly when no probe of the toolkit
    answers and the name of the error is none of the native names; whatever
    it returns or throws is a structured error with the input error for
    cause; it throws only when no probe answers, so a toolkit error with a
    native name is returned. *)
Theorem getCDKError_yields : forall error : JsError,
  (getCDKError error = Return None <->
   isAuthenticationError (toolkit error) = false /\
   isAssemblyError (toolkit error) = false /\
   isContextProviderError (toolkit error) = false /\
   ~ In (name error) nativeErrorNames)
  /\ (forall e, getCDKError error = Return (Some e) \/
                 getCDKError error = Throw e ->
                 cause e = Some error /\ isAmplifyError e = true)
  /\ (forall e, getCDKError error = Throw e ->
                 isAuthenticationError (toolkit error) = false /\
                 isAssemblyError (toolkit error) = false /\
                 isContextProviderError (toolkit error) = false /\
                 In (name error) nativeErrorNames).
Proof.
  intros error. unfold getCDKError.
  destruct (isAuthenticationError (toolkit error)).
  { split; [split; [discriminate | intros [H _]; discriminate]|].
    split; [|discriminate].
    intros e [H|H]; [injection H as <-; auto | discriminate]. }
  destruct (isAssemblyError (toolkit error)).
  { split; [split; [discriminate | intros [_ [H _]]; discriminate]|].
    split; [|discriminate].
    intros e [H|H]; [injection H as <-; auto | discriminate]. }
  destruct (isContextProviderError (toolkit error)).
  { split; [split; [discriminate | intros [_ [_ [H _]]]; discriminate]|].
    split; [|discriminate].
    intros e [H|H]; [injection H as <-; auto | discriminate]. }
  destruct (existsb _ nativeErrorNames) eqn:Hname.
  { apply existsb_eqb_In in Hname.
    split; [split; [discriminate | intros [_ [_ [_ H]]]; contradiction]|].
    split; [|auto].
    intros e [H|H]; [discriminate | injection H as <-; auto]. }
  assert (Hnot : ~ In (name error) nativeErrorNames).
  { intros Hin. apply existsb_eqb_In in Hin. congruence. }
  destruct (isToolkitError (toolkit error));
    (split; [split; auto|]; split; [intros e [H|H]; discriminate
                                   | discriminate]).
Qed.

(* ================================================================== *)
(** ** The lint plugin: rules and configuration *)

(** The recommended configuration names exactly the rules the plugin
    exports, under the name of the plugin; an override only switches on a
    rule that the configuration switches off, and each rule switched off is
    switched on by an override; no key of [rules] is written twice and no
    rule module is bound to two keys. *)
Theorem recommended_config_is_consistent :
  (forall key : string,
     In key (map fst (EslintRules.configRules EslintRules.recommended)) <->
     exists plugin ruleName,
       In plugin (EslintRules.plugins EslintRules.recommended) /\
       In ruleName (map fst EslintRules.rules) /\
       key = EslintRules.qualified plugin ruleName)
  /\ (forall (o : EslintRules.Override) (key : string)
             (level : EslintRules.Level),
        In o (EslintRules.overrides EslintRules.recommended) ->
        In (key, level) (EslintRules.overrideRules o) ->
        level = EslintRules.error /\
        In (key, EslintRules.off)
          (EslintRules.configRules EslintRules.recommended))
  /\ (forall key : string,
        In (key, EslintRules.off)
          (EslintRules.configRules EslintRules.recommended) ->
        exists o, In o (EslintRules.overrides EslintRules.recommended) /\
                  In (key, EslintRules.error) (EslintRules.overrideRules o))
  /\ NoDup (map fst EslintRules.rules) /\ NoDup (map snd EslintRules.rules).
Proof.
  assert (Hkeys :
    map fst (EslintRules.configRules EslintRules.recommended)
    = map (EslintRules.qualified "@aws-amplify/amplify-backend-rules")
        (map fst EslintRules.rules)) by reflexivity.
  split; [|split; [|split; [|split]]].
  - intros key. rewrite Hkeys, in_map_iff. split.
    + intros [ruleName [<- Hin]].
      exists "@aws-amplify/amplify-backend-rules"%string, ruleName.
      repeat split; [simpl; auto | assumption].
    + intros [plugin [ruleName [[<-|[]] [Hin ->]]]].
      exists ruleName. auto.
  - intros o key level [<-|[<-|[]]] [H|[]]; injection H as <- <-;
      (split; [reflexivity | simpl; auto 10]).
  - intros key Hin.
    destruct Hin as [H|[H|[H|[H|[H|[H|[H|[]]]]]]]]; try discriminate H;
      injection H as <-.
    + eexists. split; [left; reflexivity | left; reflexivity].
    + eexists. split; [right; left; reflexivity | left; reflexivity].
  - simpl. repeat constructor; simpl; intuition discriminate.
  - simpl. repeat constructor; simpl; intuition discriminate.
Qed.

(* ================================================================== *)
(** ** The cause of the result *)

Lemma substituteGroup_cause :
  forall (entries : list (jsstring * option jsstring)) (st : Rewriting),
    underlyingError (fold_left substituteGroup entries st) = None \/
    underlyingError (fold_left substituteGroup entries st)
    = underlyingError st.
Proof.
  induction entries as [|entry entries IH]; intros st; [now right|].
  cbn [fold_left]. unfold substituteGroup at 2 4.
  destruct (includes (rwMessage st) _ || includes (rwResolution st) _).
  - left. now apply substituteGroup_keeps_dropped.
  - apply IH.
Qed.

Lemma applyKnownError_cause : forall R errorMessage error,
  exists r,
    completion (applyKnownError R errorMessage error) = Return r /\
    (cause r = None \/
     cause r = Some (errorAfter (applyKnownError R errorMessage error))).
Proof.
  intros R errorMessage error. unfold applyKnownError.
  destruct (exec _ _) as [m|];
    [destruct (1 <? _); [destruct (groups m) as [entries|]|]|];
    cbn [rwMessage rwResolution underlyingError completion errorAfter];
    try (destruct (classificationOf R); eexists; split;
         [reflexivity | now right | reflexivity | now right]).
  destruct (substituteGroup_cause entries
              (mkRewriting (humanReadableErrorMessage R)
                 (resolutionMessage R) (Some error))) as [H|H];
    rewrite H; destruct (classificationOf R); eexists;
    (split; [reflexivity|]); auto.
Qed.

(** For an input that is not structured and carries no serialized error,
    the error returned or thrown has no cause, or has the caller's error
    object, as the call leaves it, for cause; the fallback apart, which
    hands the error to [AmplifyError.fromError]. *)
Theorem getAmplifyError_cause_is_caller_error :
  forall (env : Collaborators) (error e : JsError)
         (deploymentType : option jsstring),
    fromStderr env (message error) = None ->
    isAmplifyError error = false ->
    completion (getAmplifyError env error deploymentType) = Return e \/
    completion (getAmplifyError env error deploymentType) = Throw e ->
    cause e = None \/
    cause e = Some (errorAfter (getAmplifyError env error deploymentType)) \/
    e = fromError error.
Proof.
  intros env error e dt Hstderr Hamplify.
  unfold getAmplifyError. rewrite Hstderr, Hamplify.
  unfold getCDKError.
  destruct (isAuthenticationError (toolkit error)).
  { cbn [completion errorAfter]. intros [H|H]; [|discriminate].
    injection H as <-. right; left; reflexivity. }
  destruct (isAssemblyError (toolkit error)).
  { cbn [completion errorAfter]. intros [H|H]; [|discriminate].
    injection H as <-. right; left; reflexivity. }
  destruct (isContextProviderError (toolkit error)).
  { cbn [completion errorAfter]. intros [H|H]; [|discriminate].
    injection H as <-. right; left; reflexivity. }
  destruct (existsb _ nativeErrorNames).
  { cbn [completion errorAfter]. intros [H|H]; [discriminate|].
    injection H as <-. right; left; reflexivity. }
  assert (Hrest : forall o : Outcome,
    o = (if includes (message error)
              (str "does not support module.register()")
         then mkOutcome
                (Return
                   (AmplifyUserError (str "NodeVersionNotSupportedError")
                      (str "Unable to deploy due to unsupported node version")
                      (Some (nodeVersionResolution dt)) (Some error)))
                error
         else if includes (message error) (str "Failed to bundle asset")
         then mkOutcome
                (Return
                   (AmplifyUserError (str "CDKAssetBundleError")
                      (str "CDK failed to bundle your function code")
                      (Some (str "Check the error messages above for mode details"))
                      None))
                error
         else scanTable env error) ->
    completion o = Return e \/ completion o = Throw e ->
    cause e = None \/ cause e = Some (errorAfter o) \/ e = fromError error).
  { intros o ->.
    destruct (includes (message error) _).
    { cbn [completion errorAfter]. intros [H|H]; [|discriminate].
      injection H as <-. right; left; reflexivity. }
    destruct (includes (message error) _).
    { cbn [completion errorAfter]. intros [H|H]; [|discriminate].
      injection H as <-. left; reflexivity. }
    unfold scanTable.
    destruct (find _ _) as [R|].
    - destruct (applyKnownError_cause R (stripANSI env (message error)) error)
        as [r [Hr Hcause]].
      rewrite Hr. intros [H|H]; [|discriminate]. injection H as <-.
      destruct Hcause; auto.
    - cbn [completion errorAfter]. intros [H|H]; [|discriminate].
      injection H as <-. right; right; reflexivity. }
  destruct (isToolkitError (toolkit error));
    intros H; refine (Hrest _ _ H); reflexivity.
Qed.

Lemma getAmplifyError_cause_is_caller_error_witness :
  fromStderr Sample.collaborators (message Build.error) = None /\
  isAmplifyError Build.error = false /\
  exists e : JsError,
    completion (getAmplifyError Sample.collaborators Build.error None)
    = Return e /\
    (cause e = None \/
     cause e
     = Some (errorAfter (getAmplifyError Sample.collaborators Build.error None))
     \/ e = fromError Build.error).
Proof.
  split; [reflexivity|]. split; [reflexivity|].
  destruct (completion (getAmplifyError Sample.collaborators Build.error None))
    as [e|e] eqn:Hc.
  - exists e. split; [reflexivity|].
    exact (getAmplifyError_cause_is_caller_error Sample.collaborators
             Build.error e None eq_refl eq_refl (or_introl Hc)).
  - exfalso. revert Hc. vm_compute. discriminate.
Defined.

(* ================================================================== *)
(** ** The result of a rule of the table *)

Lemma substituteGroup_resolution :
  forall (entries : list (jsstring * option jsstring)) (st : Rewriting),
    rwResolution (fold_left substituteGroup entries st)
    = substituteAll entries (rwResolution st).
Proof.
  unfold substituteAll.
  induction entries as [|entry entries IH]; intros st; [reflexivity|].
  cbn [fold_left]. rewrite IH. f_equal. unfold substituteGroup.
  destruct (includes (rwMessage st) (str "{" ++ fst entry ++ str "}"));
    cbn [orb]; [reflexivity|].
  destruct (includes (rwResolution st) (str "{" ++ fst entry ++ str "}"))
    eqn:Hr; cbn [rwResolution];
    [reflexivity | symmetry; now apply replace_absent].
Qed.

(** What a rule with named groups, each referred to by a template, makes of
    a message its pattern matches. *)
Lemma applyKnownError_named_result : forall R errorMessage error,
  test (errorRegex R) errorMessage = true ->
  groupNames (errorRegex R) <> [] ->
  groupsReferenced R = true ->
  exists (m : MatchResult) (entries : list (jsstring * option jsstring)),
    exec (errorRegex R) errorMessage = Some m /\
    groups m = Some entries /\
    map fst entries = groupNames (errorRegex R) /\
    applyKnownError R errorMessage error =
      mkOutcome
        (Return
           (mkError (errorName R)
              (dropTrailingEol
                 (substituteAll entries (humanReadableErrorMessage R)))
              (Some (classificationOf R))
              (Some (substituteAll entries (resolutionMessage R)))
              None notToolkit))
        error.
Proof.
  intros R errorMessage error Htest Hnames Href.
  unfold test in Htest. unfold applyKnownError.
  destruct (exec (errorRegex R) errorMessage) as [m|] eqn:Hexec;
    [|discriminate].
  destruct (exec_shape _ _ _ Hexec) as [Hcount [_ Hsome]].
  pose proof (groupNames_counted (errorRegex R)) as Hle.
  destruct (groupNames (errorRegex R)) as [|n ns] eqn:Hgn;
    [now contradiction Hnames|].
  assert (Hlen : (1 <? S (ncaptures m)) = true).
  { apply Nat.ltb_lt. rewrite Hcount. simpl in Hle. lia. }
  rewrite Hlen.
  destruct (groups m) as [entries|] eqn:Hgroups.
  - destruct (Hsome entries eq_refl) as [Hkeys _].
    exists m, entries. split; [reflexivity|]. split; [exact Hgroups|].
    split; [exact Hkeys|].
    assert (Hdropped :
      underlyingError
        (fold_left substituteGroup entries
           (mkRewriting (humanReadableErrorMessage R)
              (resolutionMessage R) (Some error))) = None).
    { apply (substituteGroup_referenced_drops entries _ n).
      - rewrite Hkeys. simpl; auto.
      - unfold groupsReferenced in Href. rewrite Hgn in Href.
        cbn [forallb] in Href. apply andb_true_iff in Href as [Hn _].
        exact Hn. }
    cbn [rwMessage rwResolution underlyingError].
    rewrite Hdropped, removeFirst_trailingEol, substituteGroup_message,
      substituteGroup_resolution.
    cbn [rwMessage rwResolution]. unfold substituteAll.
    destruct (classificationOf R); reflexivity.
  - exfalso. unfold exec in Hexec.
    destruct (search errorMessage (errorRegex R) (length errorMessage) 0)
      as [[i y]|]; [|discriminate].
    injection Hexec as <-. simpl in Hgroups. rewrite Hgn in Hgroups.
    discriminate.
Qed.

(** The result of the rule the table scan applies, in full.  A pattern
    without capture groups gives the rule's name, severity and two
    templates as they stand, with the error passed in for cause.  A pattern
    with capture groups, none of them named, gives the same but for the
    cause: the message of the caller's error is first replaced by the text
    the pattern matched, and that object is the cause.  A pattern with
    named groups gives no cause and leaves the caller's error alone; its
    message is the message template after the substitution loop, without
    the line terminators at its end, and its resolution is the resolution
    template after the loop. *)
Theorem getAmplifyError_cause_follows_named_groups :
  forall (env : Collaborators) (error : JsError)
         (deploymentType : option jsstring) (R : KnownError),
    reachesTable env error ->
    find (fun knownError =>
            test (errorRegex knownError) (stripANSI env (message error)))
      (getKnownErrors env) = Some R ->
    (ngroups (errorRegex R) = 0 ->
     getAmplifyError env error deploymentType
     = mkOutcome (Return (verbatim R (Some error))) error)
    /\ (0 < ngroups (errorRegex R) -> groupNames (errorRegex R) = [] ->
        exists m : MatchResult,
          exec (errorRegex R) (stripANSI env (message error)) = Some m /\
          getAmplifyError env error deploymentType
          = mkOutcome
              (Return (verbatim R (Some (setMessage error (matched m)))))
              (setMessage error (matched m)) /\
          message (errorAfter (getAmplifyError env error deploymentType))
          = matched m)
    /\ (groupNames (errorRegex R) <> [] ->
        exists (m : MatchResult)
               (entries : list (jsstring * option jsstring)),
          exec (errorRegex R) (stripANSI env (message error)) = Some m /\
          groups m = Some entries /\
          map fst entries = groupNames (errorRegex R) /\
          getAmplifyError env error deploymentType
          = mkOutcome
              (Return
                 (mkError (errorName R)
                    (dropTrailingEol
                       (substituteAll entries (humanReadableErrorMessage R)))
                    (Some (classificationOf R))
                    (Some (substituteAll entries (resolutionMessage R)))
                    None notToolkit))
              error).
Proof.
  intros env error dt R Hreach Hfind.
  rewrite (getAmplifyError_table env error dt Hreach).
  unfold scanTable. rewrite Hfind.
  apply find_some in Hfind as [Hin Htest].
  split; [|split].
  - intros Hzero. now apply applyKnownError_no_groups.
  - intros Hpos Hnames.
    destruct (applyKnownError_unnamed_groups R
                (stripANSI env (message error)) error Htest Hnames Hpos)
      as [m [Hexec Hresult]].
    exists m. split; [exact Hexec|]. split; [exact Hresult|].
    rewrite Hresult. reflexivity.
  - intros Hnames.
    apply applyKnownError_named_result; [exact Htest | exact Hnames |].
    exact (knownErrors_groupsReferenced env R Hin).
Qed.

Lemma getAmplifyError_cause_follows_named_groups_witness :
  reachesTable Sample.collaborators AccessDenied.error /\
  reachesTable Sample.collaborators Permission.error /\
  reachesTable Sample.collaborators Placeholders.share /\
  reachesTable Sample.collaborators Placeholders.braces /\
  cause_of_return
    (completion (getAmplifyError Sample.collaborators AccessDenied.error None))
  = Some (Some AccessDenied.error) /\
  getAmplifyError Sample.collaborators Permission.error None
  = mkOutcome
      (Return
         (mkError (str "FilePermissionsError") (str "File permissions error")
            (Some ERROR)
            (Some (str "Check that you have the right access permissions to the mentioned file"))
            (Some
               (nativeError (str "Error")
                  (str "EACCES: permission denied, open '/srv/app/amplify_outputs.json'")))
            notToolkit))
      (nativeError (str "Error")
         (str "EACCES: permission denied, open '/srv/app/amplify_outputs.json'")) /\
  getAmplifyError Sample.collaborators Placeholders.share None
  = mkOutcome
      (Return
         (mkError (str "FileNotFoundError") (str "Failed to open '/mnt/c")
            (Some ERROR)
            (Some (str "File or directory not found. Failed to open '/mnt/c"))
            None notToolkit))
      Placeholders.share /\
  getAmplifyError Sample.collaborators Placeholders.braces None
  = mkOutcome
      (Return
         (mkError (str "AccessDeniedError")
            (str "Unable to deploy due to insufficient permissions")
            (Some ERROR)
            (Some (str "Ensure you have permissions to call   arn:aws:s3:::b for {resource}"))
            None notToolkit))
      Placeholders.braces.
Proof.
  assert (H1 : reachesTable Sample.collaborators AccessDenied.error)
    by (repeat split; reflexivity).
  assert (H2 : reachesTable Sample.collaborators Permission.error)
    by (repeat split; reflexivity).
  assert (H3 : reachesTable Sample.collaborators Placeholders.share)
    by (repeat split; reflexivity).
  assert (H4 : reachesTable Sample.collaborators Placeholders.braces)
    by (repeat split; reflexivity).
  split; [exact H1|]. split; [exact H2|]. split; [exact H3|].
  split; [exact H4|].
  split; [|split; [|split]].
  - edestruct (getAmplifyError_cause_follows_named_groups
                 Sample.collaborators AccessDenied.error None)
      as [Hnone _].
    { exact H1. }
    { vm_compute. reflexivity. }
    rewrite Hnone; reflexivity.
  - edestruct (getAmplifyError_cause_follows_named_groups
                 Sample.collaborators Permission.error None)
      as [_ [Hunnamed _]].
    { exact H2. }
    { vm_compute. reflexivity. }
    destruct Hunnamed as [m [Hexec [Hresult _]]];
      [vm_compute; lia | reflexivity |].
    vm_compute in Hexec. injection Hexec as <-.
    rewrite Hresult. reflexivity.
  - edestruct (getAmplifyError_cause_follows_named_groups
                 Sample.collaborators Placeholders.share None)
      as [_ [_ Hnamed]].
    { exact H3. }
    { vm_compute. reflexivity. }
    destruct Hnamed as [m [entries [Hexec [Hgroups [_ Hresult]]]]];
      [intros H; discriminate H|].
    vm_compute in Hexec. injection Hexec as <-.
    vm_compute in Hgroups. injection Hgroups as <-.
    rewrite Hresult. vm_compute. reflexivity.
  - edestruct (getAmplifyError_cause_follows_named_groups
                 Sample.collaborators Placeholders.braces None)
      as [_ [_ Hnamed]].
    { exact H4. }
    { vm_compute. reflexivity. }
    destruct Hnamed as [m [entries [Hexec [Hgroups [_ Hresult]]]]];
      [intros H; discriminate H|].
    vm_compute in Hexec. injection Hexec as <-.
    vm_compute in Hgroups. injection Hgroups as <-.
    rewrite Hresult. vm_compute. reflexivity.
Defined.

(* ================================================================== *)
(** ** The text a pattern matches *)

(** [indexOf] gives the first occurrence. *)
Lemma indexOf_least : forall (p s : jsstring) (i j : nat),
  indexOf p s = Some i -> j < i -> startsWith p (skipn j s) = false.
Proof.
  intros p. induction s as [|c s IH]; intros i j H Hj; simpl in H.
  - destruct (startsWith p []); [|discriminate]. injection H as <-. lia.
  - destruct (startsWith p (c :: s)) eqn:Hp; [injection H as <-; lia|].
    destruct (indexOf p s) as [k|] eqn:Hk; [|discriminate].
    injection H as <-. destruct j as [|j]; [exact Hp|].
    simpl. apply (IH k j eq_refl). lia.
Qed.

(** A text that starts at a position occurs at it or before it. *)
Lemma startsWith_indexOf : forall (p s : jsstring) (j : nat),
  j <= length s ->
  startsWith p (skipn j s) = true ->
  exists k, k <= j /\ indexOf p s = Some k.
Proof.
  intros p. induction s as [|c s IH]; intros j Hj Hp.
  - destruct j; simpl in Hp; simpl; rewrite Hp; exists 0; split; auto; lia.
  - simpl. destruct (startsWith p (c :: s)) eqn:H0.
    + exists 0. split; [lia | reflexivity].
    + destruct j as [|j]; [simpl in Hp; congruence|].
      simpl in Hp, Hj. destruct (IH j) as [k [Hk Hi]]; [lia | exact Hp |].
      rewrite Hi. exists (S k). split; [lia | reflexivity].
Qed.

Lemma startsWith_split : forall p s : jsstring,
  startsWith p s = true -> s = p ++ skipn (length p) s.
Proof.
  induction p as [|x p IH]; intros [|y s] H; try reflexivity;
    try discriminate.
  simpl in H. apply andb_true_iff in H as [Hxy Hp].
  apply N.eqb_eq in Hxy. subst y. simpl. f_equal. now apply IH.
Qed.

Lemma upToLineTerminator_prefix : forall s : jsstring,
  firstn (length (upToLineTerminator s)) s = upToLineTerminator s.
Proof.
  induction s as [|c s IH]; [reflexivity|]. simpl.
  destruct (isLineTerminator c); [reflexivity|]. simpl. now rewrite IH.
Qed.

Section Search.

Variable s : jsstring.

(** The search returns the match at the first position that has one. *)
Lemma search_at : forall r n i0 i y,
  i0 <= i <= i0 + n ->
  matcher s r (mkState i []) Some = Some y ->
  (forall j, i0 <= j < i -> matcher s r (mkState j []) Some = None) ->
  search s r n i0 = Some (i, y).
Proof.
  intros r. induction n as [|n IH]; intros i0 i y Hi Hy Hbefore.
  - assert (i = i0) by lia. subst i. simpl. now rewrite Hy.
  - destruct (Nat.eq_dec i i0) as [->|Hne].
    + simpl. now rewrite Hy.
    + simpl. rewrite (Hbefore i0) by lia.
      apply IH; [lia | exact Hy |]. intros j Hj. apply Hbefore. lia.
Qed.

(** [.*] takes the text up to the next line terminator. *)
Lemma dot_run : forall fuel i,
  length s - i < fuel ->
  repeatMatcher (matcher s Dot) [] fuel 0 None (mkState i []) Some
  = Some (mkState (i + length (upToLineTerminator (skipn i s))) []).
Proof.
  assert (Hdot : forall x c,
    matcher s Dot x c = step s (fun ch => negb (isLineTerminator ch)) x c)
    by reflexivity.
  induction fuel as [|fuel IH]; intros i Hfuel; [lia|].
  rewrite repeatMatcher_step. cbv zeta.
  change (0 =? 0) with true. cbv iota.
  cbn [endIndex captures].
  change (clear [] []) with (@nil (jsstring * jsstring)).
  rewrite Hdot. unfold step. cbn [endIndex captures].
  destruct (nth_error s i) as [ch|] eqn:Hnth.
  - assert (Hlt : i < length s) by (apply nth_error_Some; congruence).
    rewrite (skipn_cons_nth _ _ _ _ Hnth). cbn [upToLineTerminator].
    destruct (isLineTerminator ch); cbn [negb length].
    + now rewrite Nat.add_0_r.
    + unfold nextIteration. change (0 =? 0) with true.
      cbn [andb endIndex option_map]. change (Nat.pred 0) with 0.
      assert (Hne : (S i =? i) = false) by (apply Nat.eqb_neq; lia).
      rewrite Hne. rewrite IH by lia.
      now rewrite Nat.add_succ_r.
  - rewrite (skipn_nil_nth _ _ _ Hnth). cbn [upToLineTerminator length].
    now rewrite Nat.add_0_r.
Qed.

Lemma any_at : forall i,
  matcher s any (mkState i []) Some
  = Some (mkState (i + length (upToLineTerminator (skipn i s))) []).
Proof.
  intros i. unfold any, Star. cbn [matcher groupNames].
  apply dot_run. unfold repeatFuel. simpl. lia.
Qed.

(** A pattern of two alternatives, the first a text followed by [.*], the
    second beginning with another text: where the first text occurs first,
    the match is that text and the rest of its line. *)
Lemma exec_literal_then_any : forall (p q : jsstring) (r2 : regex) (i : nat),
  indexOf p s = Some i ->
  (forall k, indexOf q s = Some k -> i <= k) ->
  exists m,
    exec (Alt (Seq (lit_units p) any) (Seq (lit_units q) r2)) s = Some m /\
    index m = i /\
    matched m = p ++ upToLineTerminator (skipn (i + length p) s).
Proof.
  intros p q r2 i Hi Hq.
  destruct (indexOf_startsWith p s i Hi) as [Hle Hstart].
  set (r := Alt (Seq (lit_units p) any) (Seq (lit_units q) r2)).
  set (rest := upToLineTerminator (skipn (i + length p) s)).
  assert (Hat : matcher s r (mkState i []) Some
                = Some (mkState (i + length p + length rest) [])).
  { unfold r. cbn [matcher]. fold (matcher s).
    change (matcher s (lit_units p) (mkState i [])
              (fun y => matcher s any y Some))
      with (matcher s (Seq (lit_units p) any) (mkState i []) Some).
    rewrite matcher_literal_first. cbn [endIndex]. rewrite Hstart.
    unfold advance. cbn [endIndex captures]. now rewrite any_at. }
  assert (Hbefore : forall j, 0 <= j < i ->
            matcher s r (mkState j []) Some = None).
  { intros j [_ Hj]. unfold r. cbn [matcher]. fold (matcher s).
    change (matcher s (lit_units p) (mkState j [])
              (fun y => matcher s any y Some))
      with (matcher s (Seq (lit_units p) any) (mkState j []) Some).
    rewrite matcher_literal_first. cbn [endIndex].
    rewrite (indexOf_least p s i j Hi Hj).
    change (matcher s (lit_units q) (mkState j [])
              (fun y => matcher s r2 y Some))
      with (matcher s (Seq (lit_units q) r2) (mkState j []) Some).
    rewrite matcher_literal_first. cbn [endIndex].
    destruct (startsWith q (skipn j s)) eqn:Hqj; [|reflexivity].
    exfalso. destruct (startsWith_indexOf q s j) as [k [Hk Hik]];
      [lia | exact Hqj |].
    pose proof (Hq k Hik). lia. }
  assert (Hsearch : search s r (length s) 0
                    = Some (i, mkState (i + length p + length rest) [])).
  { apply search_at; [lia | exact Hat | exact Hbefore]. }
  unfold exec. fold r. rewrite Hsearch.
  eexists. split; [reflexivity|]. cbn [index matched endIndex].
  split; [reflexivity|].
  unfold substring.
  replace (i + length p + length rest - i) with (length p + length rest)
    by lia.
  rewrite (startsWith_split p (skipn i s) Hstart).
  rewrite skipn_skipn.
  replace (length p + i) with (i + length p) by lia.
  rewrite firstn_app, firstn_all2 by lia.
  replace (length p + length rest - length p) with (length rest) by lia.
  unfold rest. now rewrite upToLineTerminator_prefix.
Qed.

End Search.

(** A message that reaches the table and includes [ExpiredToken: ] is
    reported as [ExpiredTokenError], whatever else it holds: the first rule
    of the table takes it.  The message of the caller's error becomes the
    text the pattern of that rule matched in the message stripped of ANSI
    codes, and the caller's error is the cause of the result.  Where no
    [The security token included in the request is ] stands before the
    first [ExpiredToken: ], the matched text is [ExpiredToken: ] and the
    rest of its line. *)
Theorem getAmplifyError_expired_token :
  forall (env : Collaborators) (error : JsError)
         (deploymentType : option jsstring),
    reachesTable env error ->
    includes (stripANSI env (message error)) (str "ExpiredToken: ") = true ->
    (exists (R : KnownError) (m : MatchResult),
       nth_error (getKnownErrors env) 0 = Some R /\
       exec (errorRegex R) (stripANSI env (message error)) = Some m /\
       getAmplifyError env error deploymentType =
         mkOutcome
           (Return
              (mkError (str "ExpiredTokenError")
                 (str "The security token included in the request is invalid.")
                 (Some ERROR)
                 (Some (str "Please update your AWS credentials. You can do this by running `aws configure` or by updating your AWS credentials file. If you're using temporary credentials, you may need to obtain new ones."))
                 (Some (setMessage error (matched m))) notToolkit))
           (setMessage error (matched m)) /\
       message (errorAfter (getAmplifyError env error deploymentType))
       = matched m)
    /\ (forall i : nat,
          indexOf (str "ExpiredToken: ") (stripANSI env (message error))
          = Some i ->
          (forall k : nat,
             indexOf (str "The security token included in the request is ")
               (stripANSI env (message error)) = Some k ->
             i <= k) ->
          message (errorAfter (getAmplifyError env error deploymentType))
          = str "ExpiredToken: "
            ++ upToLineTerminator
                 (skipn (i + length (str "ExpiredToken: "))
                    (stripANSI env (message error)))).
Proof.
  intros env error dt Hreach Hp.
  set (errorMessage := stripANSI env (message error)) in *.
  assert (Hrule : exists R rest,
    nth_error (getKnownErrors env) 0 = Some R /\
    errorRegex R
    = Alt (Seq (lit_units (str "ExpiredToken: ")) any)
          (Seq (lit_units
                  (str "The security token included in the request is "))
             rest) /\
    groupNames (errorRegex R) = [] /\
    ngroups (errorRegex R) = 1 /\
    forall c,
      verbatim R c
      = mkError (str "ExpiredTokenError")
          (str "The security token included in the request is invalid.")
          (Some ERROR)
          (Some (str "Please update your AWS credentials. You can do this by running `aws configure` or by updating your AWS credentials file. If you're using temporary credentials, you may need to obtain new ones."))
          c notToolkit).
  { do 2 eexists. split; [reflexivity|]. repeat split; reflexivity. }
  destruct Hrule as [R [rest [Hnth [Hregex [Hnames [Hcount Hverbatim]]]]]].
  assert (Htest : test (errorRegex R) errorMessage = true)
    by (rewrite Hregex; now apply test_literal_then_any).
  assert (Hfind :
    find (fun knownError => test (errorRegex knownError) errorMessage)
      (getKnownErrors env) = Some R).
  { apply (find_least KnownError _ _ 0 R Hnth Htest). intros k y Hk. lia. }
  rewrite (getAmplifyError_table env error dt Hreach).
  unfold scanTable. fold errorMessage. rewrite Hfind.
  destruct (applyKnownError_unnamed_groups R errorMessage error Htest Hnames)
    as [m [Hexec Hresult]]; [lia|].
  rewrite Hresult, Hverbatim. cbn [errorAfter setMessage message].
  split.
  - exists R, m. repeat split; assumption.
  - intros i Hi Hq.
    destruct (exec_literal_then_any errorMessage (str "ExpiredToken: ")
                (str "The security token included in the request is ")
                rest i Hi Hq) as [m' [Hexec' [_ Hmatched]]].
    rewrite Hregex in Hexec. rewrite Hexec in Hexec'.
    injection Hexec' as <-. exact Hmatched.
Qed.

Lemma getAmplifyError_expired_token_witness :
  reachesTable Sample.collaborators Tokens.expired /\
  includes (stripANSI Sample.collaborators (message Tokens.expired))
    (str "ExpiredToken: ") = true /\
  kindOf (getAmplifyError Sample.collaborators Tokens.expired None)
  = Some (str "ExpiredTokenError") /\
  message (errorAfter (getAmplifyError Sample.collaborators Tokens.expired None))
  = str "ExpiredToken: The security token included in the request is expired".
Proof.
  assert (Hreach : reachesTable Sample.collaborators Tokens.expired)
    by (repeat split; reflexivity).
  assert (Hp : includes
                 (stripANSI Sample.collaborators (message Tokens.expired))
                 (str "ExpiredToken: ") = true)
    by (vm_compute; reflexivity).
  split; [exact Hreach|]. split; [exact Hp|].
  destruct (getAmplifyError_expired_token Sample.collaborators Tokens.expired
              None Hreach Hp) as [[R [m [_ [_ [Hresult _]]]]] Hline].
  split.
  - rewrite Hresult. reflexivity.
  - rewrite (Hline 19).
    + vm_compute. reflexivity.
    + vm_compute. reflexivity.
    + intros k Hk. vm_compute in Hk. injection Hk as <-. lia.
Defined.
